(** * kneeOApp: keypoint stabilisation, smoothing and the rep state machine

    A shallow embedding of [script.js].  The module-level [let] variables of
    the script become the fields of one record, [World], which every function
    takes and returns; the DOM elements the script writes to are fields of the
    same record.

    JavaScript numbers are IEEE-754 binary64 values.  They are modelled by the
    Standard Library's [spec_float] with precision 53 and maximal exponent
    1024, whose operations round to nearest, ties to even, exactly as the
    script's [+], [-], [*] and [/] do.  [Math.hypot] and [Math.acos] are
    "implementation-approximated" in ECMAScript: they are left as the two
    fields of an interface, [MathLib]. *)

From Stdlib Require Import ZArith Bool List String Lia.
From Stdlib Require Import SpecFloat.
Import ListNotations.

(** ** JavaScript numbers *)

Module Num.

Definition prec : Z := 53.
Definition emax : Z := 1024.

Definition num : Type := spec_float.

Definition add : num -> num -> num := SFadd prec emax.
Definition sub : num -> num -> num := SFsub prec emax.
Definition mul : num -> num -> num := SFmul prec emax.
Definition div : num -> num -> num := SFdiv prec emax.

(** [a < b], [a <= b], [a > b], [a >= b] and [a === b] on numbers; every
    comparison with NaN is false. *)
Definition ltb : num -> num -> bool := SFltb.
Definition leb : num -> num -> bool := SFleb.
Definition gtb (a b : num) : bool := SFltb b a.
Definition geb (a b : num) : bool := SFleb b a.
Definition eqb : num -> num -> bool := SFeqb.

(** An integer literal (exact below 2^53). *)
Definition of_Z (z : Z) : num := binary_normalize prec emax z 0 false.

Definition zero : num := of_Z 0.
Definition one : num := of_Z 1.
Definition NaN : num := S754_nan.

(** The decimal literal [0.3]: the binary64 value nearest to 3/10, which is
    what the correctly rounded quotient of the two exact integers is. *)
Definition lit_0_3 : num := div (of_Z 3) (of_Z 10).

(** [Math.PI], 0x1.921fb54442d18p+1. *)
Definition PI : num := S754_finite false 7074237752028440 (-51).

(** [isNaN(x)] on a number. *)
Definition isNaN (x : num) : bool :=
  match x with S754_nan => true | _ => false end.

(** ToBoolean on a number: [+0], [-0] and NaN are falsy. *)
Definition truthy (x : num) : bool :=
  match x with
  | S754_zero _ | S754_nan => false
  | _ => true
  end.

(** [Math.max(a, b)] and [Math.min(a, b)]: NaN if either argument is NaN,
    and [-0] counts as smaller than [+0]. *)
Definition max (a b : num) : num :=
  if isNaN a || isNaN b then NaN
  else if ltb a b then b
  else if ltb b a then a
  else match a with S754_zero true => b | _ => a end.

Definition min (a b : num) : num :=
  if isNaN a || isNaN b then NaN
  else if ltb a b then a
  else if ltb b a then b
  else match a with S754_zero true => a | _ => b end.

(** ToNumber on a value that is either [null] or a number: [null] is [+0]. *)
Definition toNumber (v : option num) : num :=
  match v with Some n => n | None => zero end.

(** [a || d] where [a] is [null] or a number and [d] is a number. *)
Definition or_else (a : option num) (d : num) : num :=
  match a with
  | Some v => if truthy v then v else d
  | None => d
  end.

End Num.

Import Num.

Declare Scope num_scope.
Delimit Scope num_scope with num.
Bind Scope num_scope with num.
Infix "+" := add : num_scope.
Infix "-" := sub : num_scope.
Infix "*" := mul : num_scope.
Infix "/" := div : num_scope.
Infix "<?" := ltb : num_scope.
Infix "<=?" := leb : num_scope.
Infix ">?" := gtb : num_scope.
Infix ">=?" := geb : num_scope.

(** Arithmetic and comparisons are evaluated on request only. *)
Arguments of_Z : simpl never.
Arguments add : simpl never.
Arguments sub : simpl never.
Arguments mul : simpl never.
Arguments div : simpl never.
Arguments ltb : simpl never.
Arguments leb : simpl never.
Arguments gtb : simpl never.
Arguments geb : simpl never.
Arguments eqb : simpl never.

(** ** Constants of the script *)

Definition SMOOTHING_ALPHA : num := lit_0_3.
Definition MAX_GAP_SEC : num := lit_0_3.
Definition BENT_THRESHOLD : num := of_Z 110.
Definition STRAIGHT_TARGET : num := of_Z 165.
Definition ANGLE_OK_MARGIN : num := of_Z 5.
Definition MIN_REP_TIME : num := of_Z 5.
Definition MIN_PHASE_TIME : num := of_Z 2.
(** The default value of the [minScore] parameter. *)
Definition DEFAULT_MIN_SCORE : num := lit_0_3.

(** ** Keypoints and poses *)

(** A keypoint object.  The objects of a pose carry a [name]; the copies the
    script stores in [lastGood] are [{x, y, score}] and have none. *)
Record Keypoint : Type := {
  name : option string;
  x : num;
  y : num;
  score : num
}.

(** [poses[0] || null]: a pose may be [null], and its [keypoints] property may
    be missing. *)
Record Pose : Type := { keypoints : option (list Keypoint) }.

(** The three property names under which [lastGood] stores keypoints. *)
Inductive Landmark : Type := right_hip | right_knee | right_ankle.

Definition landmark_name (l : Landmark) : string :=
  match l with
  | right_hip => "right_hip"
  | right_knee => "right_knee"
  | right_ankle => "right_ankle"
  end.

(** [k.name === name] *)
Definition has_name (n : string) (k : Keypoint) : bool :=
  match name k with
  | Some s => String.eqb s n
  | None => false
  end.

Definition getKeypoint (pose : option Pose) (n : string) (minScore : num)
  : option Keypoint :=
  match pose with
  | None => None
  | Some p =>
      match keypoints p with
      | None => None
      | Some kps =>
          match find (has_name n) kps with
          | None => None
          | Some kp => if (score kp <? minScore)%num then None else Some kp
          end
      end
  end.

(** ** The cache of last good keypoints *)

Record LastGood : Type := {
  lg_right_hip : option Keypoint;
  lg_right_knee : option Keypoint;
  lg_right_ankle : option Keypoint;
  timestamp : num
}.

Definition lastGood_init : LastGood :=
  {| lg_right_hip := None; lg_right_knee := None; lg_right_ankle := None;
     timestamp := zero |}.

(** [lastGood[name]] *)
Definition lg_get (l : Landmark) (lg : LastGood) : option Keypoint :=
  match l with
  | right_hip => lg_right_hip lg
  | right_knee => lg_right_knee lg
  | right_ankle => lg_right_ankle lg
  end.

(** [lastGood[name] = v] *)
Definition lg_set (l : Landmark) (v : Keypoint) (lg : LastGood) : LastGood :=
  match l with
  | right_hip =>
      {| lg_right_hip := Some v; lg_right_knee := lg_right_knee lg;
         lg_right_ankle := lg_right_ankle lg; timestamp := timestamp lg |}
  | right_knee =>
      {| lg_right_hip := lg_right_hip lg; lg_right_knee := Some v;
         lg_right_ankle := lg_right_ankle lg; timestamp := timestamp lg |}
  | right_ankle =>
      {| lg_right_hip := lg_right_hip lg; lg_right_knee := lg_right_knee lg;
         lg_right_ankle := Some v; timestamp := timestamp lg |}
  end.

(** [lastGood.timestamp = t] *)
Definition lg_stamp (t : num) (lg : LastGood) : LastGood :=
  {| lg_right_hip := lg_right_hip lg; lg_right_knee := lg_right_knee lg;
     lg_right_ankle := lg_right_ankle lg; timestamp := t |}.

(** The object literal [{ x: direct.x, y: direct.y, score: direct.score }]. *)
Definition snapshot (direct : Keypoint) : Keypoint :=
  {| name := None; x := x direct; y := y direct; score := score direct |}.

(** [getStableKeypoint] returns the keypoint (or [null]) together with the
    [lastGood] it leaves behind. *)
Definition getStableKeypoint (pose : option Pose) (l : Landmark) (nowSec : num)
    (minScore : num) (lg : LastGood) : option Keypoint * LastGood :=
  match getKeypoint pose (landmark_name l) minScore with
  | Some direct =>
      (Some direct, lg_stamp nowSec (lg_set l (snapshot direct) lg))
  | None =>
      match lg_get l lg with
      | Some cached =>
          if (nowSec - timestamp lg <=? MAX_GAP_SEC)%num
          then (Some cached, lg)
          else (None, lg)
      | None => (None, lg)
      end
  end.

(** ** The knee angle *)

(** The two library functions whose binary64 results ECMAScript leaves to the
    implementation. *)
Record MathLib : Type := {
  hypot : num -> num -> num;
  acos : num -> num
}.

Section KneeAngle.

Variable M : MathLib.

Definition computeKneeAngle (hip knee ankle : Keypoint) : option num :=
  let v1x := (x hip - x knee)%num in
  let v1y := (y hip - y knee)%num in
  let v2x := (x ankle - x knee)%num in
  let v2y := (y ankle - y knee)%num in
  let dot := (v1x * v2x + v1y * v2y)%num in
  let mag1 := hypot M v1x v1y in
  let mag2 := hypot M v2x v2y in
  if eqb mag1 zero || eqb mag2 zero then None
  else
    let cosTheta := (dot / (mag1 * mag2))%num in
    let clamped := Num.min one (Num.max (of_Z (-1)) cosTheta) in
    let angleRad := acos M clamped in
    Some ((angleRad * of_Z 180) / PI)%num.

End KneeAngle.

(** The quotient [cosTheta] of line 122, before it is clamped. *)
Definition cosTheta (M : MathLib) (hip knee ankle : Keypoint) : num :=
  let v1x := (x hip - x knee)%num in
  let v1y := (y hip - y knee)%num in
  let v2x := (x ankle - x knee)%num in
  let v2y := (y ankle - y knee)%num in
  let dot := (v1x * v2x + v1y * v2y)%num in
  let mag1 := hypot M v1x v1y in
  let mag2 := hypot M v2x v2y in
  (dot / (mag1 * mag2))%num.

(** ** The script's variables and the elements it writes to *)

Inductive State : Type := BENT | EXTENDING | FLEXING.

(** The class [setAngleFeedback] and [setSpeedFeedback] put on their element. *)
Inductive Level : Type := ok | warn | bad.

(** What the script writes into [angleDisplay.textContent]. *)
Inductive AngleText : Type :=
| AngleNotDetected      (* Angle: -- (right leg not clearly detected) *)
| AngleInvalid          (* Angle: -- (invalid) *)
| AngleDashes           (* Angle: -- *)
| AngleMax (m : num).   (* Max Angle: m.toFixed(1) *)

(** The feedback texts; [n] is the rep number interpolated into the text. *)
Inductive Message : Type :=
| MsgExtending                (* Extending... straighten your knee. *)
| MsgEmpty                    (* the empty string *)
| MsgGreatExtension           (* Great extension! Now lower with control. *)
| MsgAlmostStraight           (* Almost straight. Try a bit more next time. *)
| MsgTooShallow               (* Too shallow. Straighten your leg more. *)
| MsgTooFast (n : Z)          (* Rep n: Too fast. Slow down your movement. *)
| MsgGoodTempo (n : Z)        (* Rep n: Good tempo and control. *)
| MsgExcellent (n : Z)        (* Rep n: Excellent extension! *)
| MsgGoodFurther (n : Z)      (* Rep n: Good, try to extend a bit further. *)
| MsgExtendMore (n : Z).      (* Rep n: Extend your leg more. *)

(** An element's [textContent] and class after a [set...Feedback] call. *)
Record Feedback : Type := { text : Message; level : Level }.

(** [repCount] only ever holds small non-negative integers, on which binary64
    addition of 1 is exact: it is kept as an integer.  An element the script
    has not written to yet holds [None]. *)
Record World : Type := {
  smoothedAngle : option num;
  lastGood : LastGood;
  state : State;
  repCount : Z;
  repStartTime : option num;
  extendStartTime : option num;
  flexStartTime : option num;
  maxAngleThisRep : option num;
  angleDisplay : option AngleText;
  repInfo : option Z;                 (* Reps: n *)
  angleFeedbackEl : option Feedback;
  speedFeedbackEl : option Feedback
}.

Definition initial : World :=
  {| smoothedAngle := None; lastGood := lastGood_init;
     state := BENT; repCount := 0;
     repStartTime := None; extendStartTime := None; flexStartTime := None;
     maxAngleThisRep := None;
     angleDisplay := None; repInfo := None;
     angleFeedbackEl := None; speedFeedbackEl := None |}.

(** One setter per variable or element the script assigns to. *)

Definition set_smoothedAngle (v : option num) (w : World) : World :=
  {| smoothedAngle := v; lastGood := lastGood w; state := state w;
     repCount := repCount w; repStartTime := repStartTime w;
     extendStartTime := extendStartTime w; flexStartTime := flexStartTime w;
     maxAngleThisRep := maxAngleThisRep w; angleDisplay := angleDisplay w;
     repInfo := repInfo w; angleFeedbackEl := angleFeedbackEl w;
     speedFeedbackEl := speedFeedbackEl w |}.

Definition set_lastGood (v : LastGood) (w : World) : World :=
  {| smoothedAngle := smoothedAngle w; lastGood := v; state := state w;
     repCount := repCount w; repStartTime := repStartTime w;
     extendStartTime := extendStartTime w; flexStartTime := flexStartTime w;
     maxAngleThisRep := maxAngleThisRep w; angleDisplay := angleDisplay w;
     repInfo := repInfo w; angleFeedbackEl := angleFeedbackEl w;
     speedFeedbackEl := speedFeedbackEl w |}.

Definition set_state (v : State) (w : World) : World :=
  {| smoothedAngle := smoothedAngle w; lastGood := lastGood w; state := v;
     repCount := repCount w; repStartTime := repStartTime w;
     extendStartTime := extendStartTime w; flexStartTime := flexStartTime w;
     maxAngleThisRep := maxAngleThisRep w; angleDisplay := angleDisplay w;
     repInfo := repInfo w; angleFeedbackEl := angleFeedbackEl w;
     speedFeedbackEl := speedFeedbackEl w |}.

Definition set_repCount (v : Z) (w : World) : World :=
  {| smoothedAngle := smoothedAngle w; lastGood := lastGood w;
     state := state w; repCount := v; repStartTime := repStartTime w;
     extendStartTime := extendStartTime w; flexStartTime := flexStartTime w;
     maxAngleThisRep := maxAngleThisRep w; angleDisplay := angleDisplay w;
     repInfo := repInfo w; angleFeedbackEl := angleFeedbackEl w;
     speedFeedbackEl := speedFeedbackEl w |}.

Definition set_repStartTime (v : option num) (w : World) : World :=
  {| smoothedAngle := smoothedAngle w; lastGood := lastGood w;
     state := state w; repCount := repCount w; repStartTime := v;
     extendStartTime := extendStartTime w; flexStartTime := flexStartTime w;
     maxAngleThisRep := maxAngleThisRep w; angleDisplay := angleDisplay w;
     repInfo := repInfo w; angleFeedbackEl := angleFeedbackEl w;
     speedFeedbackEl := speedFeedbackEl w |}.

Definition set_extendStartTime (v : option num) (w : World) : World :=
  {| smoothedAngle := smoothedAngle w; lastGood := lastGood w;
     state := state w; repCount := repCount w;
     repStartTime := repStartTime w; extendStartTime := v;
     flexStartTime := flexStartTime w; maxAngleThisRep := maxAngleThisRep w;
     angleDisplay := angleDisplay w; repInfo := repInfo w;
     angleFeedbackEl := angleFeedbackEl w;
     speedFeedbackEl := speedFeedbackEl w |}.

Definition set_flexStartTime (v : option num) (w : World) : World :=
  {| smoothedAngle := smoothedAngle w; lastGood := lastGood w;
     state := state w; repCount := repCount w;
     repStartTime := repStartTime w; extendStartTime := extendStartTime w;
     flexStartTime := v; maxAngleThisRep := maxAngleThisRep w;
     angleDisplay := angleDisplay w; repInfo := repInfo w;
     angleFeedbackEl := angleFeedbackEl w;
     speedFeedbackEl := speedFeedbackEl w |}.

Definition set_maxAngleThisRep (v : option num) (w : World) : World :=
  {| smoothedAngle := smoothedAngle w; lastGood := lastGood w;
     state := state w; repCount := repCount w;
     repStartTime := repStartTime w; extendStartTime := extendStartTime w;
     flexStartTime := flexStartTime w; maxAngleThisRep := v;
     angleDisplay := angleDisplay w; repInfo := repInfo w;
     angleFeedbackEl := angleFeedbackEl w;
     speedFeedbackEl := speedFeedbackEl w |}.

Definition set_angleDisplay (v : option AngleText) (w : World) : World :=
  {| smoothedAngle := smoothedAngle w; lastGood := lastGood w;
     state := state w; repCount := repCount w;
     repStartTime := repStartTime w; extendStartTime := extendStartTime w;
     flexStartTime := flexStartTime w; maxAngleThisRep := maxAngleThisRep w;
     angleDisplay := v; repInfo := repInfo w;
     angleFeedbackEl := angleFeedbackEl w;
     speedFeedbackEl := speedFeedbackEl w |}.

Definition set_repInfo (v : option Z) (w : World) : World :=
  {| smoothedAngle := smoothedAngle w; lastGood := lastGood w;
     state := state w; repCount := repCount w;
     repStartTime := repStartTime w; extendStartTime := extendStartTime w;
     flexStartTime := flexStartTime w; maxAngleThisRep := maxAngleThisRep w;
     angleDisplay := angleDisplay w; repInfo := v;
     angleFeedbackEl := angleFeedbackEl w;
     speedFeedbackEl := speedFeedbackEl w |}.

Definition set_angleFeedbackEl (v : option Feedback) (w : World) : World :=
  {| smoothedAngle := smoothedAngle w; lastGood := lastGood w;
     state := state w; repCount := repCount w;
     repStartTime := repStartTime w; extendStartTime := extendStartTime w;
     flexStartTime := flexStartTime w; maxAngleThisRep := maxAngleThisRep w;
     angleDisplay := angleDisplay w; repInfo := repInfo w;
     angleFeedbackEl := v; speedFeedbackEl := speedFeedbackEl w |}.

Definition set_speedFeedbackEl (v : option Feedback) (w : World) : World :=
  {| smoothedAngle := smoothedAngle w; lastGood := lastGood w;
     state := state w; repCount := repCount w;
     repStartTime := repStartTime w; extendStartTime := extendStartTime w;
     flexStartTime := flexStartTime w; maxAngleThisRep := maxAngleThisRep w;
     angleDisplay := angleDisplay w; repInfo := repInfo w;
     angleFeedbackEl := angleFeedbackEl w; speedFeedbackEl := v |}.

(** [setAngleFeedback(text, level)] and [setSpeedFeedback(text, level)]: the
    text and the class of the element are replaced. *)
Definition setAngleFeedback (t : Message) (l : Level) (w : World) : World :=
  set_angleFeedbackEl (Some {| text := t; level := l |}) w.

Definition setSpeedFeedback (t : Message) (l : Level) (w : World) : World :=
  set_speedFeedbackEl (Some {| text := t; level := l |}) w.

(** ** The per-frame update *)

(** [updateLogic] either returns or throws: [maxAngleThisRep.toFixed(1)] is a
    TypeError when [maxAngleThisRep] is [null]. *)
Inductive Outcome : Type := Returned | Threw.

(** Lines 180-183: the running smoothed value after the sample [angle]. *)
Definition smooth (angle : num) (smoothed : option num) : num :=
  let s := match smoothed with None => angle | Some s => s end in
  (SMOOTHING_ALPHA * angle + (one - SMOOTHING_ALPHA) * s)%num.

(** Lines 186-272: the [switch (state)], run on the smoothed [angle]. *)
Definition repStateMachine (angle nowSec : num) (w : World)
  : Outcome * World :=
  match state w with
  | BENT =>
      if (angle <=? BENT_THRESHOLD)%num then (Returned, w)
      else
        let w := set_state EXTENDING w in
        let w := set_repStartTime (Some nowSec) w in
        let w := set_extendStartTime (Some nowSec) w in
        let w := set_maxAngleThisRep (Some angle) w in
        let w := set_angleDisplay (Some AngleDashes) w in
        let w := setAngleFeedback MsgExtending ok w in
        (Returned, setSpeedFeedback MsgEmpty ok w)
  | EXTENDING =>
      let w :=
        if (angle >? toNumber (maxAngleThisRep w))%num
        then set_maxAngleThisRep (Some angle) w else w in
      if (angle <? toNumber (maxAngleThisRep w) - one)%num then
        let w := set_state FLEXING w in
        let w := set_flexStartTime (Some nowSec) w in
        match maxAngleThisRep w with
        | None => (Threw, w)
        | Some m =>
            let w := set_angleDisplay (Some (AngleMax m)) w in
            if (m >=? STRAIGHT_TARGET - ANGLE_OK_MARGIN)%num then
              (Returned, setAngleFeedback MsgGreatExtension ok w)
            else if (m >=? STRAIGHT_TARGET - of_Z 20)%num then
              (Returned, setAngleFeedback MsgAlmostStraight warn w)
            else
              (Returned, setAngleFeedback MsgTooShallow bad w)
        end
      else (Returned, w)
  | FLEXING =>
      if (angle <=? BENT_THRESHOLD)%num then
        let repEndTime := nowSec in
        let totalTime :=
          (repEndTime - or_else (repStartTime w) repEndTime)%num in
        let extendTime :=
          (or_else (flexStartTime w) repEndTime
           - or_else (extendStartTime w)
               (or_else (repStartTime w) repEndTime))%num in
        let flexTime :=
          (repEndTime - or_else (flexStartTime w) repEndTime)%num in
        let w := set_repCount (repCount w + 1) w in
        let w := set_repInfo (Some (repCount w)) w in
        let w :=
          if (totalTime <? MIN_REP_TIME)%num
             || (extendTime <? MIN_PHASE_TIME)%num
             || (flexTime <? MIN_PHASE_TIME)%num
          then setSpeedFeedback (MsgTooFast (repCount w)) bad w
          else setSpeedFeedback (MsgGoodTempo (repCount w)) ok w in
        let w :=
          if (toNumber (maxAngleThisRep w)
              >=? STRAIGHT_TARGET - ANGLE_OK_MARGIN)%num
          then setAngleFeedback (MsgExcellent (repCount w)) ok w
          else if (toNumber (maxAngleThisRep w)
                   >=? STRAIGHT_TARGET - of_Z 20)%num
          then setAngleFeedback (MsgGoodFurther (repCount w)) warn w
          else setAngleFeedback (MsgExtendMore (repCount w)) bad w in
        let w := set_state BENT w in
        let w := set_repStartTime None w in
        let w := set_extendStartTime None w in
        let w := set_flexStartTime None w in
        (Returned, set_maxAngleThisRep None w)
      else (Returned, w)
  end.

Section UpdateLogic.

Variable M : MathLib.

(** [updateLogic(pose)], with [nowSec] the value of
    [performance.now() / 1000] it reads on entry. *)
Definition updateLogic (pose : option Pose) (nowSec : num) (w : World)
  : Outcome * World :=
  let '(hip, lg) :=
    getStableKeypoint pose right_hip nowSec DEFAULT_MIN_SCORE (lastGood w) in
  let '(knee, lg) :=
    getStableKeypoint pose right_knee nowSec DEFAULT_MIN_SCORE lg in
  let '(ankle, lg) :=
    getStableKeypoint pose right_ankle nowSec DEFAULT_MIN_SCORE lg in
  let w := set_lastGood lg w in
  match hip, knee, ankle with
  | Some hip, Some knee, Some ankle =>
      match computeKneeAngle M hip knee ankle with
      | None => (Returned, set_angleDisplay (Some AngleInvalid) w)
      | Some angle =>
          if isNaN angle
          then (Returned, set_angleDisplay (Some AngleInvalid) w)
          else
            let angle := smooth angle (smoothedAngle w) in
            let w := set_smoothedAngle (Some angle) w in
            repStateMachine angle nowSec w
      end
  | _, _, _ => (Returned, set_angleDisplay (Some AngleNotDetected) w)
  end.

End UpdateLogic.

(** ** Runs of the render loop *)

(** One entry per frame: the pose handed to [updateLogic] and the clock value
    it reads. *)
Definition Frame : Type := (option Pose * num)%type.

Section Runs.

Variable M : MathLib.

(** The world after [updateLogic] has run on each frame in turn. *)
Fixpoint run (frames : list Frame) (w : World) : World :=
  match frames with
  | [] => w
  | (pose, nowSec) :: rest => run rest (snd (updateLogic M pose nowSec w))
  end.

(** Whether a step took the machine from FLEXING back to BENT. *)
Definition completes (w w' : World) : bool :=
  match state w, state w' with
  | FLEXING, BENT => true
  | _, _ => false
  end.

(** The number of FLEXING-to-BENT steps along a run. *)
Fixpoint completions (frames : list Frame) (w : World) : Z :=
  match frames with
  | [] => 0
  | (pose, nowSec) :: rest =>
      let w' := snd (updateLogic M pose nowSec w) in
      ((if completes w w' then 1 else 0) + completions rest w')%Z
  end.

(** Lines 164-166: the three landmarks a frame resolves, threading the
    cache through the three calls. *)
Definition resolveLandmarks (pose : option Pose) (nowSec : num) (lg : LastGood)
  : option Keypoint * option Keypoint * option Keypoint * LastGood :=
  let '(hip, lg) :=
    getStableKeypoint pose right_hip nowSec DEFAULT_MIN_SCORE lg in
  let '(knee, lg) :=
    getStableKeypoint pose right_knee nowSec DEFAULT_MIN_SCORE lg in
  let '(ankle, lg) :=
    getStableKeypoint pose right_ankle nowSec DEFAULT_MIN_SCORE lg in
  (hip, knee, ankle, lg).

(** The three ways in which a frame yields no usable angle sample. *)
Inductive NoSample (pose : option Pose) (nowSec : num) (lg : LastGood)
  : Prop :=
| MissingLandmark hip knee ankle lg' :
    resolveLandmarks pose nowSec lg = (hip, knee, ankle, lg') ->
    hip = None \/ knee = None \/ ankle = None ->
    NoSample pose nowSec lg
| DegenerateGeometry hip knee ankle lg' :
    resolveLandmarks pose nowSec lg = (Some hip, Some knee, Some ankle, lg') ->
    computeKneeAngle M hip knee ankle = None ->
    NoSample pose nowSec lg
| NumericInvalid hip knee ankle lg' angle :
    resolveLandmarks pose nowSec lg = (Some hip, Some knee, Some ankle, lg') ->
    computeKneeAngle M hip knee ankle = Some angle ->
    isNaN angle = true ->
    NoSample pose nowSec lg.

(** The frame yields the valid raw sample [angle]. *)
Definition yieldsSample (pose : option Pose) (nowSec : num) (lg : LastGood)
    (angle : num) : Prop :=
  exists hip knee ankle lg',
    resolveLandmarks pose nowSec lg = (Some hip, Some knee, Some ankle, lg')
    /\ computeKneeAngle M hip knee ankle = Some angle
    /\ isNaN angle = false.

End Runs.

(** [performance.now()] counts the milliseconds since the page's time origin.
    The render loop starts after the camera and the model have loaded, so
    the clock value [updateLogic] reads is a positive number. *)
Definition clock (t : num) : Prop := (zero <? t)%num = true.

(** The worlds the render loop can be in: it starts from [initial] and runs
    [updateLogic] once per frame. *)
Inductive reachable : World -> Prop :=
| reach_initial : reachable initial
| reach_frame (M : MathLib) (pose : option Pose) (nowSec : num) (w : World) :
    reachable w -> clock nowSec ->
    reachable (snd (updateLogic M pose nowSec w)).

(** A variable that holds a recorded clock value. *)
Definition stamped (v : option num) : Prop :=
  exists t, v = Some t /\ clock t.

(** Which of the four per-rep variables are set in each state. *)
Definition repFields (w : World) : Prop :=
  match state w with
  | BENT =>
      repStartTime w = None /\ extendStartTime w = None
      /\ flexStartTime w = None /\ maxAngleThisRep w = None
  | EXTENDING =>
      stamped (repStartTime w) /\ stamped (extendStartTime w)
      /\ maxAngleThisRep w <> None
  | FLEXING =>
      stamped (repStartTime w) /\ stamped (extendStartTime w)
      /\ stamped (flexStartTime w) /\ maxAngleThisRep w <> None
  end.

(** ** Specification-level notions *)

(** The extension-quality tier as the specification tabulates it: good from
    160 degrees, warning from 145 degrees, bad below. *)
Definition extensionTier (maxAngle : num) : Level :=
  if (maxAngle >=? of_Z 160)%num then ok
  else if (maxAngle >=? of_Z 145)%num then warn
  else bad.

(** The decimal literal [0.7]. *)
Definition lit_0_7 : num := (of_Z 7 / of_Z 10)%num.

(** The smoothed value after a sequence of valid samples. *)
Fixpoint smoothing (samples : list num) (smoothed : option num) : option num :=
  match samples with
  | [] => smoothed
  | a :: rest => smoothing rest (Some (smooth a smoothed))
  end.

(** The keypoints a pose lists. *)
Definition pose_keypoints (pose : option Pose) : list Keypoint :=
  match pose with
  | Some p => match keypoints p with Some kps => kps | None => [] end
  | None => []
  end.

(** A pose as the estimator delivers it: one keypoint per name, each with a
    confidence that is a number. *)
Definition wf_pose (pose : option Pose) : Prop :=
  NoDup (map name (pose_keypoints pose))
  /\ Forall (fun k => isNaN (score k) = false) (pose_keypoints pose).

(** The pose contains the keypoint [kp] under the landmark's name. *)
Definition listed (pose : option Pose) (l : Landmark) (kp : Keypoint) : Prop :=
  In kp (pose_keypoints pose) /\ name kp = Some (landmark_name l).

(** ** A small Math library for worked examples

    Exact on the axis-aligned poses used below: [hypot] is the rounded square
    root of the sum of squares and [acos] is tabulated at -1, 0 and 1. *)
Definition half_PI : num := S754_finite false 7074237752028440 (-52).

Definition axisMath : MathLib :=
  {| hypot := fun a b => SFsqrt prec emax (a * a + b * b)%num;
     acos := fun c =>
       if eqb c (of_Z (-1)) then PI
       else if eqb c zero then half_PI
       else if eqb c one then zero
       else NaN |}.

Definition keypointAt (n : string) (px py : Z) : Keypoint :=
  {| name := Some n; x := of_Z px; y := of_Z py; score := one |}.

(** The leg straight (180 degrees at the knee) and at a right angle. *)
Definition straightPose : option Pose :=
  Some {| keypoints := Some [keypointAt "right_hip" 1 0;
                              keypointAt "right_knee" 0 0;
                              keypointAt "right_ankle" (-1) 0] |}.

Definition bentPose : option Pose :=
  Some {| keypoints := Some [keypointAt "right_hip" 1 0;
                              keypointAt "right_knee" 0 0;
                              keypointAt "right_ankle" 0 1] |}.

(** A session: bent, five frames straightening, then frames bending back. *)
Definition risingFrames : list Frame :=
  [(bentPose, of_Z 1); (straightPose, of_Z 2); (straightPose, of_Z 3);
   (straightPose, of_Z 4); (straightPose, of_Z 5); (straightPose, of_Z 6)].

Definition fallingFrames : list Frame :=
  [(bentPose, of_Z 7); (bentPose, of_Z 8); (bentPose, of_Z 9)].

(** The worlds reached after the straightening frames (EXTENDING) and after
    the first frames of bending back (FLEXING). *)
Definition extendingWorld : World :=
  Eval vm_compute in run axisMath risingFrames initial.

Definition flexingWorld : World :=
  Eval vm_compute in run axisMath (risingFrames ++ fallingFrames) initial.

(** A pose in which only the hip is visible, a pose whose hip and knee
    coincide, a pose at 45 degrees (outside the table of [axisMath]), and a
    cache that remembers an ankle seen at time 0. *)
Definition hipOnlyPose : option Pose :=
  Some {| keypoints := Some [keypointAt "right_hip" 1 0] |}.

Definition collapsedPose : option Pose :=
  Some {| keypoints := Some [keypointAt "right_hip" 0 0;
                              keypointAt "right_knee" 0 0;
                              keypointAt "right_ankle" 0 1] |}.

Definition diagonalPose : option Pose :=
  Some {| keypoints := Some [keypointAt "right_hip" 1 0;
                              keypointAt "right_knee" 0 0;
                              keypointAt "right_ankle" 1 1] |}.

Definition ankleCache : LastGood :=
  lg_set right_ankle (snapshot (keypointAt "right_ankle" 0 1)) lastGood_init.

(** The scenario of the specification: the smoothed angles 90, 90, 95, 120,
    150, 168, 165, 140, 100, 90 reach the machine at one-second intervals. *)
Fixpoint feed (samples : list (Z * Z)) (w : World) : World :=
  match samples with
  | [] => w
  | (a, t) :: rest => feed rest (snd (repStateMachine (of_Z a) (of_Z t) w))
  end.

Definition specScenario : list (Z * Z) :=
  [(90, 1); (90, 2); (95, 3); (120, 4); (150, 5); (168, 6); (165, 7);
   (140, 8); (100, 9); (90, 10)]%Z.

(** The whole-degree samples from 0 to 180 whose first smoothed value is not
    the sample itself. *)
Definition inexactDegrees : list Z :=
  filter (fun a => negb (eqb (smooth (of_Z a) None) (of_Z a)))
         (map Z.of_nat (seq 0 181)).

(** ** The skeleton overlay and one turn of the render loop *)

(** [Number.isFinite]: neither NaN nor an infinity. *)
Definition isFinite (v : num) : bool :=
  match v with
  | S754_zero _ | S754_finite _ _ _ => true
  | S754_infinity _ | S754_nan => false
  end.

(** The calls [drawSkeleton] and [renderLoop] make on the 2D context [ctx],
    in the order they are made. *)
Inductive CanvasOp : Type :=
| DrawImage                                   (* ctx.drawImage(video, ...) *)
| BeginPath
| Arc (cx cy radius startAngle endAngle : num)
| SetFillStyle (colour : string)
| Fill
| SetStrokeStyle (colour : string)
| SetLineWidth (width : num)
| MoveTo (px py : num)
| LineTo (px py : num)
| Stroke.

(** The body of the [forEach] callback (lines 132-139). *)
Definition drawDot (k : Keypoint) : list CanvasOp :=
  if (score k >? lit_0_3)%num
  then [BeginPath; Arc (x k) (y k) (of_Z 4) zero (of_Z 2 * PI)%num;
        SetFillStyle "cyan"; Fill]
  else [].

(** [if (a && b) { beginPath; moveTo(a); lineTo(b); stroke }] *)
Definition drawSegment (a b : option Keypoint) : list CanvasOp :=
  match a, b with
  | Some a, Some b =>
      [BeginPath; MoveTo (x a) (y a); LineTo (x b) (y b); Stroke]
  | _, _ => []
  end.

(** [drawSkeleton(pose)]: the canvas calls it makes.  It guards against a
    null pose only: on a pose without [keypoints], [kp.forEach] is a
    TypeError. *)
Definition drawSkeleton (pose : option Pose) : Outcome * list CanvasOp :=
  match pose with
  | None => (Returned, [])
  | Some p =>
      match keypoints p with
      | None => (Threw, [])
      | Some kp =>
          let dots := flat_map drawDot kp in
          let rh := getKeypoint pose "right_hip" lit_0_3 in
          let rk := getKeypoint pose "right_knee" lit_0_3 in
          let ra := getKeypoint pose "right_ankle" lit_0_3 in
          (Returned,
           dots ++ [SetStrokeStyle "yellow"; SetLineWidth (of_Z 3)]
                ++ drawSegment rh rk ++ drawSegment rk ra)
      end
  end.

(** What one turn of [renderLoop] leaves behind, from the moment
    [estimatePoses] has delivered [poses]: the value of [currentPose], the
    canvas calls, the world, and whether the turn ran to its last statement,
    [requestAnimationFrame(renderLoop)], or threw before reaching it. *)
Record Turn : Type := {
  outcome : Outcome;
  currentPose : option Pose;
  drawn : list CanvasOp;
  after : World
}.

Section RenderLoop.

Variable M : MathLib.

Definition renderTurn (poses : list Pose) (nowSec : num) (w : World) : Turn :=
  let pose := hd_error poses in             (* poses[0] || null *)
  let '(o, ops) := drawSkeleton pose in
  match o with
  | Threw =>
      {| outcome := Threw; currentPose := pose; drawn := DrawImage :: ops;
         after := w |}
  | Returned =>
      let '(o, w) := updateLogic M pose nowSec w in
      {| outcome := o; currentPose := pose; drawn := DrawImage :: ops;
         after := w |}
  end.

End RenderLoop.

(** The position of a state on the cycle BENT, EXTENDING, FLEXING. *)
Definition phase (s : State) : Z :=
  match s with BENT => 0 | EXTENDING => 1 | FLEXING => 2 end.

(** A pose that carries the keypoints [kps]. *)
Definition poseOf (kps : list Keypoint) : option Pose :=
  Some {| keypoints := Some kps |}.

(** The canvas calls that place a dot, and those that trace a segment. *)
Definition isArc (op : CanvasOp) : bool :=
  match op with Arc _ _ _ _ _ => true | _ => false end.

Definition isSegmentPoint (op : CanvasOp) : bool :=
  match op with MoveTo _ _ | LineTo _ _ => true | _ => false end.

(** The names [updateLogic] and [drawSkeleton] look up. *)
Definition tracked (n : option string) : Prop :=
  exists l, n = Some (landmark_name l).

(** Further example data: a pose showing the knee only, a cache that
    remembers a hip seen at time 0, a hip with a low, a boundary and a NaN
    score, a keypoint the script does not track, and the world after the
    example session has completed its rep. *)
Definition kneeOnlyPose : option Pose :=
  Some {| keypoints := Some [keypointAt "right_knee" 0 0] |}.

Definition hipCache : LastGood :=
  lg_set right_hip (snapshot (keypointAt "right_hip" 1 0)) lastGood_init.

Definition hipScored (s : num) : Keypoint :=
  {| name := Some "right_hip"%string; x := of_Z 1; y := zero;
     score := s |}.

Definition nose : Keypoint := keypointAt "nose" 5 5.

Definition completedWorld : World :=
  Eval vm_compute in
    run axisMath (risingFrames ++ fallingFrames ++ [(bentPose, of_Z 10)])
      initial.

(** A world the render loop never produces: EXTENDING although no maximum
    has been recorded, with a smoothed angle far below zero. *)
Definition unsetMaximumWorld : World :=
  set_state EXTENDING (set_smoothedAngle (Some (of_Z (-1000))) initial).








(** ** Proof automation *)

(** Case analysis on every condition the goal branches on. *)
Ltac case_ifs :=
  repeat match goal with
         | |- context [if ?c then _ else _] => destruct c eqn:?; cbn in *
         end.

(** Replace the conditions whose value is known. *)
Ltac rewrite_ifs :=
  repeat match goal with
         | H : ?c = _ |- context [if ?c then _ else _] => rewrite H
         end.

(** Close a closed goal by evaluation. *)
Ltac by_eval := vm_compute; reflexivity.

(** The three lookups of a frame, named. *)
Ltac name_lookups pose :=
  destruct (getKeypoint pose (landmark_name right_hip) DEFAULT_MIN_SCORE)
    as [dh|] eqn:Ehip;
  destruct (getKeypoint pose (landmark_name right_knee) DEFAULT_MIN_SCORE)
    as [dk|] eqn:Eknee;
  destruct (getKeypoint pose (landmark_name right_ankle) DEFAULT_MIN_SCORE)
    as [da|] eqn:Eankle.

(** * Properties *)

(** ** The order on numbers *)

Lemma compare_antisym (a b : num) :
  SFcompare b a = option_map CompOpp (SFcompare a b).
Proof.
  destruct a as [sa|sa| |sa ma ea], b as [sb|sb| |sb mb eb]; simpl;
    try destruct sa; try destruct sb; try reflexivity;
    rewrite (Z.compare_antisym ea eb);
    destruct (ea ?= eb)%Z; simpl; try reflexivity;
    change (Pos.compare_cont Eq mb ma) with (mb ?= ma)%positive;
    change (Pos.compare_cont Eq ma mb) with (ma ?= mb)%positive;
    rewrite (Pos.compare_antisym ma mb); try reflexivity;
    destruct (ma ?= mb)%positive; reflexivity.
Qed.

Lemma compare_defined (a b : num) :
  isNaN a = false -> isNaN b = false -> exists c, SFcompare a b = Some c.
Proof.
  destruct a, b; simpl; intros; try discriminate; eauto.
Qed.

Lemma ltb_not_nan (a b : num) :
  (a <? b)%num = true -> isNaN a = false /\ isNaN b = false.
Proof.
  unfold ltb, SFltb. destruct a, b; simpl; intros; try discriminate; auto.
Qed.


(** Among numbers that are not NaN, [a <= b] fails exactly when [a > b]. *)
Lemma leb_false_gtb (a b : num) :
  isNaN a = false -> isNaN b = false ->
  (a <=? b)%num = false -> (a >? b)%num = true.
Proof.
  intros Ha Hb. unfold leb, gtb, SFleb, SFltb.
  rewrite (compare_antisym a b).
  destruct (compare_defined a b Ha Hb) as [c ->].
  destruct c; simpl; congruence.
Qed.

Lemma gtb_leb_false (a b : num) :
  (a >? b)%num = true -> (a <=? b)%num = false.
Proof.
  unfold leb, gtb, SFleb, SFltb. rewrite (compare_antisym a b).
  destruct (SFcompare a b) as [[]|]; simpl; congruence.
Qed.

Lemma ltb_leb (a b : num) : (a <? b)%num = true -> (a <=? b)%num = true.
Proof.
  unfold ltb, leb, SFltb, SFleb.
  destruct (SFcompare a b) as [[]|]; congruence.
Qed.

Lemma ltb_trans (a b c : num) :
  (a <? b)%num = true -> (b <? c)%num = true -> (a <? c)%num = true.
Proof.
  unfold ltb, SFltb.
  destruct a as [sa|sa| |sa ma ea], b as [sb|sb| |sb mb eb],
           c as [sc|sc| |sc mc ec]; simpl;
    try destruct sa; try destruct sb; try destruct sc; simpl;
    try discriminate; try reflexivity;
    change (Pos.compare_cont Eq) with Pos.compare;
    destruct (Z.compare_spec ea eb), (Z.compare_spec eb ec),
             (Z.compare_spec ea ec); try discriminate; try reflexivity;
    try lia; subst;
    destruct (Pos.compare_spec ma mb), (Pos.compare_spec mb mc),
             (Pos.compare_spec ma mc); simpl; try discriminate;
      try reflexivity; try lia.
Qed.

(** A positive clock value is truthy, so [||] keeps it. *)
Lemma clock_truthy (t : num) : clock t -> truthy t = true.
Proof.
  unfold clock, ltb, SFltb. destruct t as [s|s| |s m e]; simpl;
    try reflexivity; try discriminate.
Qed.

Lemma or_else_stamped (v : option num) (d : num) :
  stamped v -> exists t, v = Some t /\ clock t /\ or_else v d = t.
Proof.
  intros (t & -> & Ht). exists t. repeat split; trivial.
  simpl. now rewrite (clock_truthy _ Ht).
Qed.

(** The constants the script computes by subtraction. *)
Lemma tier_thresholds :
  (STRAIGHT_TARGET - ANGLE_OK_MARGIN)%num = of_Z 160
  /\ (STRAIGHT_TARGET - of_Z 20)%num = of_Z 145.
Proof. split; vm_compute; reflexivity. Qed.

Lemma smoothing_weights : (one - SMOOTHING_ALPHA)%num = lit_0_7.
Proof. vm_compute. reflexivity. Qed.

(** ** The keypoint cache *)

Lemma find_unique (n : string) (kps : list Keypoint) (k : Keypoint) :
  NoDup (map name kps) -> In k kps -> name k = Some n ->
  find (has_name n) kps = Some k.
Proof.
  induction kps as [|k0 kps IH]; simpl; intros Hnd Hin Hname; [easy|].
  inversion Hnd as [|? ? Hnotin Hnd']; subst.
  destruct Hin as [->|Hin].
  - unfold has_name at 1. rewrite Hname, String.eqb_refl. reflexivity.
  - destruct (has_name n k0) eqn:Hk0.
    + exfalso. apply Hnotin. unfold has_name in Hk0.
      destruct (name k0) as [s|] eqn:Hs; [|discriminate].
      apply String.eqb_eq in Hk0. subst s.
      rewrite <- Hname. now apply in_map.
    + now apply IH.
Qed.

Lemma find_listed (n : string) (kps : list Keypoint) (k : Keypoint) :
  find (has_name n) kps = Some k -> In k kps /\ name k = Some n.
Proof.
  intros H. apply find_some in H. destruct H as [Hin Hn]. split; trivial.
  unfold has_name in Hn. destruct (name k) as [s|]; [|discriminate].
  apply String.eqb_eq in Hn. now subst.
Qed.

(** On a well-formed pose [getKeypoint] finds a confident keypoint exactly
    when the pose lists one under that name. *)
Lemma getKeypoint_confident (pose : option Pose) (l : Landmark) (k : Keypoint)
    (minScore : num) :
  wf_pose pose -> listed pose l k -> (score k >=? minScore)%num = true ->
  getKeypoint pose (landmark_name l) minScore = Some k.
Proof.
  intros [Hnd _] [Hin Hname] Hs. unfold getKeypoint.
  destruct pose as [p|]; [|easy]. simpl in *.
  destruct (keypoints p) as [kps|]; [|easy].
  rewrite (find_unique _ _ _ Hnd Hin Hname).
  destruct (score k <? minScore)%num eqn:Hlt; [|reflexivity].
  apply gtb_leb_false in Hlt. unfold geb in Hs. unfold leb in Hlt. congruence.
Qed.

Lemma getKeypoint_none (pose : option Pose) (l : Landmark) (minScore : num) :
  wf_pose pose -> isNaN minScore = false ->
  (forall k, listed pose l k -> (score k >=? minScore)%num = false) ->
  getKeypoint pose (landmark_name l) minScore = None.
Proof.
  intros [_ Hsc] Hm Hno. unfold getKeypoint.
  destruct pose as [p|]; [|easy]. unfold listed in Hno. simpl in *.
  destruct (keypoints p) as [kps|]; [|easy].
  destruct (find (has_name (landmark_name l)) kps) as [k|] eqn:Hf;
    [|reflexivity].
  destruct (find_listed _ _ _ Hf) as [Hin Hname].
  specialize (Hno k (conj Hin Hname)).
  rewrite Forall_forall in Hsc. specialize (Hsc k Hin). simpl in Hsc.
  apply leb_false_gtb in Hno; trivial.
  unfold gtb in Hno. unfold ltb. now rewrite Hno.
Qed.

Lemma lg_get_set_same (l : Landmark) (v : Keypoint) (t : num) (lg : LastGood) :
  lg_get l (lg_stamp t (lg_set l v lg)) = Some v.
Proof. destruct l; reflexivity. Qed.

Lemma lg_get_set_other (l other : Landmark) (v : Keypoint) (t : num)
    (lg : LastGood) :
  other <> l -> lg_get other (lg_stamp t (lg_set l v lg)) = lg_get other lg.
Proof. destruct l, other; intros H; try reflexivity; now elim H. Qed.

Lemma timestamp_stamp (l : Landmark) (v : Keypoint) (t : num) (lg : LastGood) :
  timestamp (lg_stamp t (lg_set l v lg)) = t.
Proof. reflexivity. Qed.

(** C5.  For every pose as the estimator delivers it, every tracked landmark
    and every clock value: if the pose lists a keypoint of that name with
    confidence at least 0.3, [getStableKeypoint] returns the fresh keypoint
    and updates the cache: the entry of that name now holds the keypoint's
    [x], [y] and [score] (and no name), the entries of the other names are
    as they were, and the cache timestamp is the clock value.  The 0.3 s are
    measured from that refresh: on a later frame that lacks the landmark the
    entry just stored is returned while the clock is within 0.3 s of the
    refresh, and null once more than 0.3 s have passed.  Otherwise, if the
    cache has an entry for that name and the clock value minus the cache
    timestamp is at most 0.3 s, it returns the cached entry as it is,
    whatever its confidence, and leaves the cache alone.  Otherwise it
    returns null; in particular it returns null as soon as more than 0.3 s
    have passed since the cache timestamp. *)
Theorem getStableKeypoint_resolve (pose : option Pose) (l : Landmark)
    (nowSec : num) (lg : LastGood) :
  wf_pose pose ->
  (forall k, listed pose l k -> (score k >=? DEFAULT_MIN_SCORE)%num = true ->
     exists lg' entry,
       getStableKeypoint pose l nowSec DEFAULT_MIN_SCORE lg = (Some k, lg')
       /\ lg_get l lg' = Some entry
       /\ x entry = x k /\ y entry = y k /\ score entry = score k
       /\ name entry = None
       /\ (forall other, other <> l -> lg_get other lg' = lg_get other lg)
       /\ timestamp lg' = nowSec
       /\ (forall pose' later,
             getKeypoint pose' (landmark_name l) DEFAULT_MIN_SCORE = None ->
             ((later - nowSec <=? MAX_GAP_SEC)%num = true ->
              getStableKeypoint pose' l later DEFAULT_MIN_SCORE lg'
              = (Some entry, lg'))
             /\ ((later - nowSec >? MAX_GAP_SEC)%num = true ->
                 getStableKeypoint pose' l later DEFAULT_MIN_SCORE lg'
                 = (None, lg'))))
  /\ ((forall k, listed pose l k ->
                 (score k >=? DEFAULT_MIN_SCORE)%num = false) ->
      (forall cached,
          lg_get l lg = Some cached ->
          (nowSec - timestamp lg <=? MAX_GAP_SEC)%num = true ->
          getStableKeypoint pose l nowSec DEFAULT_MIN_SCORE lg
          = (Some cached, lg))
      /\ (lg_get l lg = None
          \/ (nowSec - timestamp lg <=? MAX_GAP_SEC)%num = false ->
          getStableKeypoint pose l nowSec DEFAULT_MIN_SCORE lg = (None, lg))
      /\ ((nowSec - timestamp lg >? MAX_GAP_SEC)%num = true ->
          getStableKeypoint pose l nowSec DEFAULT_MIN_SCORE lg = (None, lg))).
Proof.
  intros Hwf. split.
  - intros k Hk Hs. unfold getStableKeypoint at 1.
    rewrite (getKeypoint_confident pose l k _ Hwf Hk Hs).
    exists (lg_stamp nowSec (lg_set l (snapshot k) lg)), (snapshot k).
    split; [reflexivity|]. split; [apply lg_get_set_same|].
    do 4 (split; [reflexivity|]).
    split; [intros other Hother; now apply lg_get_set_other|].
    split; [apply timestamp_stamp|].
    intros pose' later Hnone. unfold getStableKeypoint.
    rewrite Hnone, lg_get_set_same, timestamp_stamp. split.
    + intros ->. reflexivity.
    + intros Hold. apply gtb_leb_false in Hold. now rewrite Hold.
  - intros Hno.
    assert (Hnone : getKeypoint pose (landmark_name l) DEFAULT_MIN_SCORE = None)
      by (apply getKeypoint_none; trivial).
    unfold getStableKeypoint. rewrite Hnone. repeat split.
    + intros cached -> ->. reflexivity.
    + intros [-> | Hold]; [reflexivity|].
      rewrite Hold. now destruct (lg_get l lg).
    + intros Hold. apply gtb_leb_false in Hold. rewrite Hold.
      now destruct (lg_get l lg).
Qed.

(** C6.  A fresh confident observation of one tracked landmark overwrites
    that landmark's cache entry only, leaves the entries of the other
    landmarks as they were, and sets the one timestamp the three entries
    share; from then on the fallback check of every landmark measures the
    gap from that moment, so a cached entry of any of the three is returned
    while the clock is within 0.3 s of it. *)
Theorem fresh_observation_refreshes_shared_timestamp (pose : option Pose)
    (l : Landmark) (nowSec : num) (lg : LastGood) (direct : Keypoint) :
  getKeypoint pose (landmark_name l) DEFAULT_MIN_SCORE = Some direct ->
  let lg' := snd (getStableKeypoint pose l nowSec DEFAULT_MIN_SCORE lg) in
  lg_get l lg' = Some (snapshot direct)
  /\ timestamp lg' = nowSec
  /\ (forall other, other <> l -> lg_get other lg' = lg_get other lg)
  /\ (forall other pose' later cached,
        lg_get other lg' = Some cached ->
        getKeypoint pose' (landmark_name other) DEFAULT_MIN_SCORE = None ->
        (later - nowSec <=? MAX_GAP_SEC)%num = true ->
        getStableKeypoint pose' other later DEFAULT_MIN_SCORE lg'
        = (Some cached, lg')).
Proof.
  intros Hd. unfold getStableKeypoint at 1. rewrite Hd. cbn [snd].
  repeat split.
  - apply lg_get_set_same.
  - intros other Hother. now apply lg_get_set_other.
  - intros other pose' later cached Hc Hnone Hgap.
    unfold getStableKeypoint. rewrite Hnone, Hc.
    rewrite timestamp_stamp. now rewrite Hgap.
Qed.

(** ** The knee angle *)

Lemma mul_comm (a b : num) : (a * b)%num = (b * a)%num.
Proof.
  unfold mul, SFmul.
  destruct a as [sa|sa| |sa ma ea], b as [sb|sb| |sb mb eb];
    try reflexivity; try (now rewrite xorb_comm).
  now rewrite xorb_comm, Pos.mul_comm, Z.add_comm.
Qed.

(** The angle at the knee does not depend on which end of the leg is called
    the hip, whatever the Math library. *)
Lemma computeKneeAngle_swap (M : MathLib) (hip knee ankle : Keypoint) :
  computeKneeAngle M ankle knee hip = computeKneeAngle M hip knee ankle.
Proof.
  unfold computeKneeAngle. cbv zeta.
  rewrite (orb_comm (eqb (hypot M (x ankle - x knee) (y ankle - y knee)) zero)).
  rewrite (mul_comm (x ankle - x knee)), (mul_comm (y ankle - y knee)).
  rewrite (mul_comm (hypot M (x ankle - x knee) (y ankle - y knee))).
  reflexivity.
Qed.

(** It is null exactly when [Math.hypot] returns zero for one of the two
    vectors. *)
Lemma computeKneeAngle_null (M : MathLib) (hip knee ankle : Keypoint) :
  computeKneeAngle M hip knee ankle = None
  <-> eqb (hypot M (x hip - x knee) (y hip - y knee)) zero = true
      \/ eqb (hypot M (x ankle - x knee) (y ankle - y knee)) zero = true.
Proof.
  unfold computeKneeAngle. cbv zeta. rewrite <- orb_true_iff.
  destruct (_ || _); split; intros H; try reflexivity; discriminate H.
Qed.

(** With a correctly rounded [Math.hypot], the cosine handed to [Math.acos]
    for the collinear, opposite vectors (1,1) and (-1,-1) is
    -0.9999999999999998, not -1: the product of the two magnitudes is
    2.0000000000000004. *)
Lemma diagonal_cosine :
  let h := hypot axisMath one one in
  (h * h)%num = S754_finite false 4503599627370497 (-51)
  /\ Num.min one (Num.max (of_Z (-1)) (of_Z (-2) / (h * h))%num)
     = S754_finite true 9007199254740990 (-53).
Proof. split; vm_compute; reflexivity. Qed.

(** ** The rep state machine *)

(** C1.  For every smoothed angle (a number, not NaN) fed to the [switch]:
    from BENT the machine goes to EXTENDING if and only if the angle is
    strictly greater than 110 degrees, and at exactly 110 degrees it stays
    BENT; from EXTENDING it goes to FLEXING if and only if the angle is
    strictly below [maxAngleThisRep - 1.0], where [maxAngleThisRep] is the
    running maximum as the same step has just brought it up to date (the
    previous maximum whenever the angle does not exceed it); from FLEXING it
    returns to BENT, completing the rep, if and only if the angle is at most
    110 degrees, and at exactly 110 degrees the rep completes. *)
Theorem repStateMachine_transitions (angle nowSec : num) (w : World) :
  isNaN angle = false ->
  let w' := snd (repStateMachine angle nowSec w) in
  (state w = BENT ->
     (state w' = EXTENDING <-> (angle >? of_Z 110)%num = true)
     /\ (state w' = BENT \/ state w' = EXTENDING)
     /\ (angle = of_Z 110 -> state w' = BENT))
  /\ (state w = EXTENDING ->
     (state w' = FLEXING
      <-> (angle <? toNumber (maxAngleThisRep w') - one)%num = true)
     /\ maxAngleThisRep w'
        = (if (angle >? toNumber (maxAngleThisRep w))%num
           then Some angle else maxAngleThisRep w)
     /\ ((angle >? toNumber (maxAngleThisRep w))%num = false ->
         (state w' = FLEXING
          <-> (angle <? toNumber (maxAngleThisRep w) - one)%num = true))
     /\ (state w' = EXTENDING \/ state w' = FLEXING))
  /\ (state w = FLEXING ->
     (state w' = BENT <-> (angle <=? of_Z 110)%num = true)
     /\ (state w' = FLEXING \/ state w' = BENT)
     /\ (angle = of_Z 110 ->
         state w' = BENT /\ repCount w' = (repCount w + 1)%Z)).
Proof.
  intros Hnan w'. subst w'.
  destruct w as [sm lg st rc rs es fs mx ad ri af sf].
  unfold repStateMachine; cbn [state maxAngleThisRep repCount].
  split; [|split]; intros ->.
  - change BENT_THRESHOLD with (of_Z 110).
    destruct (angle <=? of_Z 110)%num eqn:Hle; cbn.
    + repeat split; try discriminate; auto.
      intros Hgt. apply gtb_leb_false in Hgt. congruence.
    + repeat split; auto.
      * intros _. now apply leb_false_gtb.
      * intros ->. discriminate Hle.
  - destruct (angle >? toNumber mx)%num eqn:Hgt; cbn.
    + destruct (angle <? angle - one)%num eqn:Hlt; cbn.
      * case_ifs; rewrite Hlt;
          (split; [tauto|]); (split; [reflexivity|]);
          (split; [intros H; discriminate H|now right]).
      * rewrite Hlt.
        split; [split; intros H; discriminate H|].
        split; [reflexivity|].
        split; [intros H; discriminate H|now left].
    + destruct (angle <? toNumber mx - one)%num eqn:Hlt; cbn.
      * destruct mx as [m|]; cbn; cbn in Hlt; case_ifs; rewrite Hlt;
          (split; [tauto|]); (split; [reflexivity|]);
          (split; [tauto|now right]).
      * rewrite Hlt.
        split; [split; intros H; discriminate H|].
        split; [reflexivity|].
        split; [intros _; split; intros H; discriminate H|now left].
  - change BENT_THRESHOLD with (of_Z 110).
    destruct (angle <=? of_Z 110)%num eqn:Hle; cbn.
    + split; [tauto|]. split; [now right|]. intros _.
      split; [reflexivity|]. case_ifs; reflexivity.
    + split; [split; intros H; discriminate H|].
      split; [now left|]. intros ->. discriminate Hle.
Qed.

Lemma extensionTier_spec (m : num) :
  isNaN m = false ->
  (extensionTier m = ok <-> (m >=? of_Z 160)%num = true)
  /\ (extensionTier m = warn
      <-> (m >=? of_Z 145)%num = true /\ (m <? of_Z 160)%num = true)
  /\ (extensionTier m = bad <-> (m <? of_Z 145)%num = true).
Proof.
  intros Hm. unfold extensionTier.
  assert (Hlt : (of_Z 145 <? of_Z 160)%num = true) by reflexivity.
  destruct (m >=? of_Z 160)%num eqn:H160.
  - split; [tauto|]. split.
    + split; [intros H; discriminate H|].
      intros [_ H]. apply (gtb_leb_false (of_Z 160) m) in H.
      unfold geb, leb in *. congruence.
    + split; [intros H; discriminate H|].
      intros H. pose proof (ltb_trans _ _ _ H Hlt) as H'.
      apply (gtb_leb_false (of_Z 160) m) in H'.
      unfold geb, leb in *. congruence.
  - assert (H' : (m <? of_Z 160)%num = true)
      by (apply (leb_false_gtb (of_Z 160) m); trivial).
    destruct (m >=? of_Z 145)%num eqn:H145;
      (split; [split; intros H; discriminate H|]).
    + split; [tauto|]. split; [intros H; discriminate H|].
      intros H. apply (gtb_leb_false (of_Z 145) m) in H.
      unfold geb, leb in *. congruence.
    + split; [split; [intros H; discriminate H|intros [H _]; discriminate H]|].
      split; [intros _|reflexivity].
      apply (leb_false_gtb (of_Z 145) m); trivial.
Qed.

(** C3.  At every EXTENDING-to-FLEXING transition, and again at every rep
    completion, the class put on the angle feedback element is a function of
    [maxAngleThisRep] alone, namely [extensionTier]: ok if and only if
    [maxAngleThisRep >= 160], warn if and only if
    [145 <= maxAngleThisRep < 160], bad if and only if
    [maxAngleThisRep < 145]; a rep whose [maxAngleThisRep] is 150 degrees is
    tiered warn. *)
Theorem extension_tier (angle nowSec : num) (w : World) (m : num) :
  isNaN m = false ->
  let w' := snd (repStateMachine angle nowSec w) in
  (state w = EXTENDING -> state w' = FLEXING -> maxAngleThisRep w' = Some m ->
     exists t,
       angleFeedbackEl w' = Some {| text := t; level := extensionTier m |})
  /\ (state w = FLEXING -> state w' = BENT -> maxAngleThisRep w = Some m ->
     exists t,
       angleFeedbackEl w' = Some {| text := t; level := extensionTier m |})
  /\ (extensionTier m = ok <-> (m >=? of_Z 160)%num = true)
  /\ (extensionTier m = warn
      <-> (m >=? of_Z 145)%num = true /\ (m <? of_Z 160)%num = true)
  /\ (extensionTier m = bad <-> (m <? of_Z 145)%num = true)
  /\ extensionTier (of_Z 150) = warn.
Proof.
  intros Hm w'. subst w'.
  destruct tier_thresholds as [T160 T145].
  destruct (extensionTier_spec m Hm) as (E1 & E2 & E3).
  split; [|split; [|split; [|split; [|split]]]];
    trivial; try reflexivity.
  - destruct w as [sm lg st rc rs es fs mx ad ri af sf].
    unfold repStateMachine; cbn [state maxAngleThisRep].
    intros ->. rewrite T160, T145.
    destruct mx as [m0|]; case_ifs; intros Hs Hmax;
      try discriminate Hs; try discriminate Hmax;
      injection Hmax as <-; unfold extensionTier; rewrite_ifs; eauto.
  - destruct w as [sm lg st rc rs es fs mx ad ri af sf].
    unfold repStateMachine; cbn [state maxAngleThisRep].
    intros -> Hs [= ->]. revert Hs. rewrite T160, T145.
    case_ifs; intros Hs; try discriminate Hs;
      unfold extensionTier; rewrite_ifs; eauto.
Qed.

(** ** The per-frame update *)

Lemma updateLogic_resolved (M : MathLib) (pose : option Pose) (nowSec : num)
    (w : World) :
  updateLogic M pose nowSec w =
  let '(hip, knee, ankle, lg) :=
    resolveLandmarks pose nowSec (lastGood w) in
  let w1 := set_lastGood lg w in
  match hip, knee, ankle with
  | Some hip, Some knee, Some ankle =>
      match computeKneeAngle M hip knee ankle with
      | None => (Returned, set_angleDisplay (Some AngleInvalid) w1)
      | Some angle =>
          if isNaN angle
          then (Returned, set_angleDisplay (Some AngleInvalid) w1)
          else
            repStateMachine (smooth angle (smoothedAngle w)) nowSec
              (set_smoothedAngle (Some (smooth angle (smoothedAngle w))) w1)
      end
  | _, _, _ => (Returned, set_angleDisplay (Some AngleNotDetected) w1)
  end.
Proof.
  unfold updateLogic, resolveLandmarks.
  destruct (getStableKeypoint pose right_hip _ _ _) as [hip lg1].
  destruct (getStableKeypoint pose right_knee _ _ _) as [knee lg2].
  destruct (getStableKeypoint pose right_ankle _ _ _) as [ankle lg3].
  reflexivity.
Qed.

Lemma updateLogic_no_sample (M : MathLib) (pose : option Pose) (nowSec : num)
    (w : World) :
  NoSample M pose nowSec (lastGood w) ->
  exists lg txt,
    updateLogic M pose nowSec w
    = (Returned, set_angleDisplay (Some txt) (set_lastGood lg w)).
Proof.
  intros H. rewrite updateLogic_resolved.
  destruct H as [hip knee ankle lg' -> Hmiss
                | hip knee ankle lg' -> Hdeg
                | hip knee ankle lg' angle -> Hang Hnan].
  - exists lg', AngleNotDetected.
    destruct Hmiss as [-> | [-> | ->]];
      repeat match goal with
             | |- context [match ?o with Some _ => _ | None => _ end] =>
                 is_var o; destruct o
             end; reflexivity.
  - exists lg', AngleInvalid. cbv zeta. now rewrite Hdeg.
  - exists lg', AngleInvalid. cbv zeta. now rewrite Hang, Hnan.
Qed.

Lemma updateLogic_sample (M : MathLib) (pose : option Pose) (nowSec : num)
    (w : World) (angle : num) :
  yieldsSample M pose nowSec (lastGood w) angle ->
  exists lg,
    updateLogic M pose nowSec w
    = repStateMachine (smooth angle (smoothedAngle w)) nowSec
        (set_smoothedAngle (Some (smooth angle (smoothedAngle w)))
           (set_lastGood lg w)).
Proof.
  intros (hip & knee & ankle & lg' & Hres & Hang & Hnan).
  exists lg'. rewrite updateLogic_resolved, Hres. cbv zeta.
  now rewrite Hang, Hnan.
Qed.

Lemma sample_or_not (M : MathLib) (pose : option Pose) (nowSec : num)
    (lg : LastGood) :
  NoSample M pose nowSec lg
  \/ exists angle, yieldsSample M pose nowSec lg angle.
Proof.
  destruct (resolveLandmarks pose nowSec lg)
    as [[[hip knee] ankle] lg'] eqn:Hres.
  destruct hip as [hip|];
    [|left; eapply MissingLandmark; [exact Hres|tauto]].
  destruct knee as [knee|];
    [|left; eapply MissingLandmark; [exact Hres|tauto]].
  destruct ankle as [ankle|];
    [|left; eapply MissingLandmark; [exact Hres|tauto]].
  destruct (computeKneeAngle M hip knee ankle) as [angle|] eqn:Hang;
    [|left; eapply DegenerateGeometry; eassumption].
  destruct (isNaN angle) eqn:Hnan.
  - left. eapply NumericInvalid; eassumption.
  - right. exists angle, hip, knee, ankle, lg'. auto.
Qed.

(** One step of the machine moves along the cycle or stays put, and adds one
    to [repCount] exactly when it goes from FLEXING to BENT. *)
Lemma repStateMachine_step (angle nowSec : num) (w : World) :
  let w' := snd (repStateMachine angle nowSec w) in
  repCount w' = (repCount w + (if completes w w' then 1 else 0))%Z
  /\ (state w' = state w
      \/ (state w = BENT /\ state w' = EXTENDING)
      \/ (state w = EXTENDING /\ state w' = FLEXING)
      \/ (state w = FLEXING /\ state w' = BENT)).
Proof.
  destruct w as [sm lg st rc rs es fs mx ad ri af sf].
  unfold repStateMachine, completes; cbn [state maxAngleThisRep repCount].
  destruct st; [| |].
  - case_ifs; split; auto; lia.
  - destruct mx; case_ifs; split; auto; try lia; tauto.
  - case_ifs; split; auto; try lia; tauto.
Qed.

Lemma updateLogic_step (M : MathLib) (pose : option Pose) (nowSec : num)
    (w : World) :
  let w' := snd (updateLogic M pose nowSec w) in
  repCount w' = (repCount w + (if completes w w' then 1 else 0))%Z
  /\ (state w' = state w
      \/ (state w = BENT /\ state w' = EXTENDING)
      \/ (state w = EXTENDING /\ state w' = FLEXING)
      \/ (state w = FLEXING /\ state w' = BENT)).
Proof.
  destruct (sample_or_not M pose nowSec (lastGood w)) as [Hno | [a Ha]].
  - destruct (updateLogic_no_sample M pose nowSec w Hno) as (lg & txt & ->).
    cbn. unfold completes. cbn. destruct (state w); split; auto; lia.
  - destruct (updateLogic_sample M pose nowSec w a Ha) as (lg & ->).
    apply (repStateMachine_step _ nowSec
             (set_smoothedAngle _ (set_lastGood lg w))).
Qed.

Lemma run_completions (M : MathLib) (frames : list Frame) (w : World) :
  repCount (run M frames w) = (repCount w + completions M frames w)%Z.
Proof.
  revert w. induction frames as [|[pose nowSec] rest IH]; intros w; simpl.
  - lia.
  - rewrite IH. destruct (updateLogic_step M pose nowSec w) as [-> _]. lia.
Qed.

(** C2.  The rep counter starts at 0.  A frame adds exactly 1 to it when it
    takes the machine from FLEXING back to BENT and leaves it unchanged
    otherwise, so it never decreases; the machine only moves BENT to
    EXTENDING, EXTENDING to FLEXING and FLEXING to BENT, so each such step
    closes one BENT, EXTENDING, FLEXING, BENT cycle, and over any run of the
    render loop the counter equals the number of completed cycles. *)
Theorem repCount_counts_completed_cycles :
  repCount initial = 0%Z
  /\ (forall M pose nowSec w,
        let w' := snd (updateLogic M pose nowSec w) in
        (state w = FLEXING /\ state w' = BENT ->
         repCount w' = (repCount w + 1)%Z)
        /\ (~ (state w = FLEXING /\ state w' = BENT) ->
            repCount w' = repCount w)
        /\ (repCount w <= repCount w')%Z
        /\ (state w' = state w
            \/ (state w = BENT /\ state w' = EXTENDING)
            \/ (state w = EXTENDING /\ state w' = FLEXING)
            \/ (state w = FLEXING /\ state w' = BENT)))
  /\ (forall M frames,
        repCount (run M frames initial) = completions M frames initial)
  /\ (forall M frames, (0 <= repCount (run M frames initial))%Z).
Proof.
  split; [reflexivity|]. split; [|split].
  - intros M pose nowSec w w'.
    destruct (updateLogic_step M pose nowSec w) as [Hc Hs].
    fold w' in Hc, Hs. unfold completes in Hc.
    repeat split; trivial.
    + intros [H1 H2]. rewrite Hc, H1, H2. reflexivity.
    + intros Hn. rewrite Hc.
      destruct (state w) eqn:E1, (state w') eqn:E2; try lia.
      elim Hn; auto.
    + rewrite Hc. destruct (state w), (state w'); lia.
  - intros M frames. now rewrite run_completions.
  - intros M frames. rewrite run_completions. cbn [repCount initial].
    generalize initial. induction frames as [|[pose nowSec] rest IH];
      intros w; simpl; [lia|].
    specialize (IH (snd (updateLogic M pose nowSec w))).
    destruct (completes _ _); lia.
Qed.

(** C9.  When a frame yields no usable angle sample, because a landmark
    cannot be resolved, or the geometry is degenerate, or the computed angle
    is NaN, [updateLogic] returns normally, takes no transition, and leaves
    [state], [repCount], [repStartTime], [extendStartTime], [flexStartTime],
    [maxAngleThisRep] and [smoothedAngle] unchanged. *)
Theorem no_sample_leaves_machine_alone (M : MathLib) (pose : option Pose)
    (nowSec : num) (w : World) :
  NoSample M pose nowSec (lastGood w) ->
  let r := updateLogic M pose nowSec w in
  fst r = Returned
  /\ state (snd r) = state w
  /\ repCount (snd r) = repCount w
  /\ repStartTime (snd r) = repStartTime w
  /\ extendStartTime (snd r) = extendStartTime w
  /\ flexStartTime (snd r) = flexStartTime w
  /\ maxAngleThisRep (snd r) = maxAngleThisRep w
  /\ smoothedAngle (snd r) = smoothedAngle w.
Proof.
  intros H r. subst r.
  destruct (updateLogic_no_sample M pose nowSec w H) as (lg & txt & ->).
  cbn. repeat split.
Qed.

(** ** Invariants of the render loop *)

Lemma repFields_frame (w : World) (lg : LastGood) (sm : option num)
    (txt : option AngleText) :
  repFields w ->
  repFields (set_smoothedAngle sm (set_lastGood lg w))
  /\ repFields (set_angleDisplay txt (set_lastGood lg w)).
Proof. destruct w; auto. Qed.

Lemma repStateMachine_repFields (angle nowSec : num) (w : World) :
  clock nowSec -> repFields w ->
  repFields (snd (repStateMachine angle nowSec w)).
Proof.
  intros Hclock.
  assert (Hst : stamped (Some nowSec)) by (exists nowSec; auto).
  destruct w as [sm lg st rc rs es fs mx ad ri af sf].
  unfold repFields, repStateMachine; cbn [state maxAngleThisRep].
  destruct st; cbn.
  - intros (Hrs & Hes & Hfs & Hmx).
    case_ifs; repeat split; auto; try discriminate.
  - intros (Hrs & Hes & Hmx).
    destruct mx as [m|]; [|now elim Hmx].
    case_ifs; repeat split; auto; try discriminate.
  - intros (Hrs & Hes & Hfs & Hmx).
    case_ifs; repeat split; auto.
Qed.

Lemma updateLogic_repFields (M : MathLib) (pose : option Pose) (nowSec : num)
    (w : World) :
  clock nowSec -> repFields w ->
  repFields (snd (updateLogic M pose nowSec w)).
Proof.
  intros Hclock Hw.
  destruct (sample_or_not M pose nowSec (lastGood w)) as [Hno | [a Ha]].
  - destruct (updateLogic_no_sample M pose nowSec w Hno) as (lg & txt & ->).
    now apply (repFields_frame w lg None (Some txt)).
  - destruct (updateLogic_sample M pose nowSec w a Ha) as (lg & ->).
    apply repStateMachine_repFields; trivial.
Qed.

Lemma reachable_repFields (w : World) : reachable w -> repFields w.
Proof.
  induction 1 as [|M pose nowSec w _ IH Hclock].
  - repeat split.
  - now apply updateLogic_repFields.
Qed.

(** In a reachable world the machine step never meets a null
    [maxAngleThisRep]: [updateLogic] always returns. *)
Lemma repStateMachine_returns (angle nowSec : num) (w : World) :
  repFields w -> fst (repStateMachine angle nowSec w) = Returned.
Proof.
  destruct w as [sm lg st rc rs es fs mx ad ri af sf].
  unfold repFields, repStateMachine; cbn [state maxAngleThisRep].
  destruct st; cbn.
  - intros _. case_ifs; reflexivity.
  - intros (_ & _ & Hmx). destruct mx as [m|]; [|now elim Hmx].
    case_ifs; reflexivity.
  - intros _. case_ifs; reflexivity.
Qed.

Lemma updateLogic_returns (M : MathLib) (pose : option Pose) (nowSec : num)
    (w : World) :
  reachable w -> fst (updateLogic M pose nowSec w) = Returned.
Proof.
  intros Hr. apply reachable_repFields in Hr.
  destruct (sample_or_not M pose nowSec (lastGood w)) as [Hno | [a Ha]].
  - now destruct (updateLogic_no_sample M pose nowSec w Hno)
      as (lg & txt & ->).
  - destruct (updateLogic_sample M pose nowSec w a Ha) as (lg & ->).
    apply repStateMachine_returns.
    now apply (repFields_frame w lg (Some (smooth a (smoothedAngle w))) None).
Qed.

Lemma stamped_not_null (v : option num) : stamped v -> v <> None.
Proof. intros (t & -> & _). discriminate. Qed.

(** In a reachable FLEXING world the three clock values are recorded and
    truthy, so every [||] of the duration computation keeps its left
    operand. *)
Lemma flexing_stamps (w : World) (repEndTime : num) :
  reachable w -> state w = FLEXING ->
  exists repStart extendStart flexStart,
    repStartTime w = Some repStart
    /\ extendStartTime w = Some extendStart
    /\ flexStartTime w = Some flexStart
    /\ or_else (repStartTime w) repEndTime = repStart
    /\ or_else (flexStartTime w) repEndTime = flexStart
    /\ or_else (extendStartTime w)
         (or_else (repStartTime w) repEndTime) = extendStart.
Proof.
  intros Hr Hs. apply reachable_repFields in Hr. unfold repFields in Hr.
  rewrite Hs in Hr. destruct Hr as (Hrs & Hes & Hfs & Hmx).
  destruct (or_else_stamped _ repEndTime Hrs) as (rs & Ers & _ & Ors).
  destruct (or_else_stamped _ repEndTime Hfs) as (fs & Efs & _ & Ofs).
  destruct (or_else_stamped _ (or_else (repStartTime w) repEndTime) Hes)
    as (es & Ees & _ & Oes).
  exists rs, es, fs. auto 7.
Qed.

(** C10.  In every world the render loop can reach: in state BENT the four
    per-rep variables [repStartTime], [extendStartTime], [flexStartTime] and
    [maxAngleThisRep] are null; in state EXTENDING [repStartTime],
    [extendStartTime] and [maxAngleThisRep] are not null; in state FLEXING
    all four are not null.  Hence at completion each [||] of the duration
    computation yields its left operand: the fallbacks are never taken. *)
Theorem reachable_rep_fields (w : World) :
  reachable w ->
  (state w = BENT ->
     repStartTime w = None /\ extendStartTime w = None
     /\ flexStartTime w = None /\ maxAngleThisRep w = None)
  /\ (state w = EXTENDING ->
     repStartTime w <> None /\ extendStartTime w <> None
     /\ maxAngleThisRep w <> None)
  /\ (state w = FLEXING ->
     (repStartTime w <> None /\ extendStartTime w <> None
      /\ flexStartTime w <> None /\ maxAngleThisRep w <> None)
     /\ forall repEndTime,
        exists repStart extendStart flexStart,
          repStartTime w = Some repStart
          /\ extendStartTime w = Some extendStart
          /\ flexStartTime w = Some flexStart
          /\ or_else (repStartTime w) repEndTime = repStart
          /\ or_else (flexStartTime w) repEndTime = flexStart
          /\ or_else (extendStartTime w)
               (or_else (repStartTime w) repEndTime) = extendStart).
Proof.
  intros Hr. pose proof (reachable_repFields w Hr) as Hf.
  unfold repFields in Hf.
  split; [|split]; intros Hs; rewrite Hs in Hf.
  - exact Hf.
  - destruct Hf as (Hrs & Hes & Hmx).
    auto using stamped_not_null.
  - destruct Hf as (Hrs & Hes & Hfs & Hmx).
    split; [auto 6 using stamped_not_null|].
    intros repEndTime. now apply flexing_stamps.
Qed.

(** What the completing step writes to the speed feedback element. *)
Lemma completion_speed (angle repEndTime : num) (w : World) :
  state w = FLEXING ->
  let w' := snd (repStateMachine angle repEndTime w) in
  state w' = BENT ->
  let totalTime := (repEndTime - or_else (repStartTime w) repEndTime)%num in
  let extendTime :=
    (or_else (flexStartTime w) repEndTime
     - or_else (extendStartTime w)
         (or_else (repStartTime w) repEndTime))%num in
  let flexTime := (repEndTime - or_else (flexStartTime w) repEndTime)%num in
  speedFeedbackEl w'
  = Some (if (totalTime <? of_Z 5)%num || (extendTime <? of_Z 2)%num
             || (flexTime <? of_Z 2)%num
          then {| text := MsgTooFast (repCount w'); level := bad |}
          else {| text := MsgGoodTempo (repCount w'); level := ok |}).
Proof.
  destruct w as [sm lg st rc rs es fs mx ad ri af sf].
  unfold repStateMachine; cbn [state repStartTime extendStartTime
                                 flexStartTime].
  intros ->. cbv zeta.
  change MIN_REP_TIME with (of_Z 5). change MIN_PHASE_TIME with (of_Z 2).
  destruct (angle <=? BENT_THRESHOLD)%num; cbn; [|intros H; discriminate H].
  intros _. destruct (_ || _ || _); cbn; case_ifs; reflexivity.
Qed.

(** C4.  At rep completion, with [totalTime = repEnd - repStart],
    [extendTime = flexStart - extendStart] and
    [flexTime = repEnd - flexStart] taken from the recorded clock values, the
    speed feedback is Too fast with class bad if and only if
    [totalTime < 5] or [extendTime < 2] or [flexTime < 2], and Good tempo
    with class ok otherwise; in particular a rep whose total time is 3 s is
    Too fast whatever its phase times. *)
Theorem tempo_classification (M : MathLib) (pose : option Pose)
    (repEndTime : num) (w : World) :
  reachable w ->
  let w' := snd (updateLogic M pose repEndTime w) in
  state w = FLEXING -> state w' = BENT ->
  exists repStart extendStart flexStart,
    repStartTime w = Some repStart
    /\ extendStartTime w = Some extendStart
    /\ flexStartTime w = Some flexStart
    /\ let totalTime := (repEndTime - repStart)%num in
       let extendTime := (flexStart - extendStart)%num in
       let flexTime := (repEndTime - flexStart)%num in
       let tooFast :=
         (totalTime <? of_Z 5)%num || (extendTime <? of_Z 2)%num
         || (flexTime <? of_Z 2)%num in
       speedFeedbackEl w'
       = Some (if tooFast
               then {| text := MsgTooFast (repCount w'); level := bad |}
               else {| text := MsgGoodTempo (repCount w'); level := ok |})
       /\ (totalTime = of_Z 3 ->
           speedFeedbackEl w'
           = Some {| text := MsgTooFast (repCount w'); level := bad |}).
Proof.
  intros Hr w' Hs Hs'.
  destruct (flexing_stamps w repEndTime Hr Hs)
    as (rs & es & fs & Ers & Ees & Efs & Ors & Ofs & Oes).
  exists rs, es, fs. repeat (split; [assumption|]). cbv zeta.
  assert (Hsp : speedFeedbackEl w'
    = Some (if ((repEndTime - rs <? of_Z 5)%num
                || (fs - es <? of_Z 2)%num
                || (repEndTime - fs <? of_Z 2)%num)
            then {| text := MsgTooFast (repCount w'); level := bad |}
            else {| text := MsgGoodTempo (repCount w'); level := ok |})).
  { subst w'. revert Hs'.
    destruct (sample_or_not M pose repEndTime (lastGood w)) as [Hno | [a Ha]].
    - destruct (updateLogic_no_sample M pose repEndTime w Hno)
        as (lg & txt & ->).
      cbn. rewrite Hs. intros H; discriminate H.
    - destruct (updateLogic_sample M pose repEndTime w a Ha) as (lg & ->).
      intros Hs'.
      pose proof (completion_speed (smooth a (smoothedAngle w)) repEndTime
                    (set_smoothedAngle (Some (smooth a (smoothedAngle w)))
                       (set_lastGood lg w)) Hs Hs') as Hc.
      cbn in Hc. rewrite Oes, Ofs, Ors in Hc. exact Hc. }
  split; [exact Hsp|].
  intros H3. rewrite Hsp, H3. reflexivity.
Qed.

(** ** Smoothing *)

Lemma smooth_first (a : num) :
  smooth a None = (lit_0_3 * a + lit_0_7 * a)%num.
Proof. unfold smooth. now rewrite smoothing_weights. Qed.

Lemma smooth_next (a s : num) :
  smooth a (Some s) = (lit_0_3 * a + lit_0_7 * s)%num.
Proof. unfold smooth. now rewrite smoothing_weights. Qed.

Lemma smoothing_constant (a : num) (n : nat) :
  (lit_0_3 * a + lit_0_7 * a)%num = a ->
  smoothing (repeat a n) (Some a) = Some a.
Proof.
  intros Hfix. induction n as [|n IH]; simpl; [reflexivity|].
  now rewrite smooth_next, Hfix.
Qed.

Lemma updateLogic_smoothedAngle (M : MathLib) (pose : option Pose)
    (nowSec : num) (w : World) (a : num) :
  yieldsSample M pose nowSec (lastGood w) a ->
  smoothedAngle (snd (updateLogic M pose nowSec w))
  = Some (smooth a (smoothedAngle w)).
Proof.
  intros Ha. destruct (updateLogic_sample M pose nowSec w a Ha) as (lg & ->).
  generalize (smooth a (smoothedAngle w)). intros s.
  destruct w as [sm lg0 st rc rs es fs mx ad ri af sf].
  unfold repStateMachine; cbn [state maxAngleThisRep set_smoothedAngle
    set_lastGood smoothedAngle lastGood repCount repStartTime extendStartTime
    flexStartTime angleDisplay repInfo angleFeedbackEl speedFeedbackEl].
  destruct st; [| destruct mx |]; case_ifs; reflexivity.
Qed.

(** After a first sample of 111 degrees the smoothed value is not 111:
    [0.3 * 111] is 33.3 and [0.7 * 111] is 77.69999999999999 in binary64, and
    their sum is 110.99999999999999, the number just below 111. *)
Lemma first_sample_111_not_exact :
  (SMOOTHING_ALPHA * of_Z 111)%num
  = S754_finite false 4686558362232422 (-47)
  /\ ((one - SMOOTHING_ALPHA) * of_Z 111)%num
     = S754_finite false 5467651422604492 (-46)
  /\ smooth (of_Z 111) None = S754_finite false 7810930603720703 (-46)
  /\ of_Z 111 = S754_finite false 7810930603720704 (-46)
  /\ smoothing [of_Z 111] None <> Some (of_Z 111).
Proof.
  repeat split; try by_eval. vm_compute. discriminate.
Qed.

(** It is not an isolated value: 22 of the whole-degree samples behave so. *)
Lemma inexactDegrees_count :
  List.length inexactDegrees = 22%nat /\ In 111%Z inexactDegrees.
Proof. split; [by_eval|]. vm_compute. tauto. Qed.

(** C8.  On each valid sample [a] the script stores
    [0.3 * a + 0.7 * s], computed in binary64, where [s] is the previous
    smoothed value, or [a] itself when there is none yet.  After the first
    sample the smoothed value is therefore [0.3 * a + 0.7 * a], which is [a]
    only when that sum rounds back to [a]; for such an [a], feeding [a]
    again and again keeps the smoothed value equal to [a] on every step. *)
Theorem smoothing_blend :
  (forall M pose nowSec w a,
      yieldsSample M pose nowSec (lastGood w) a ->
      smoothedAngle (snd (updateLogic M pose nowSec w))
      = Some (smooth a (smoothedAngle w)))
  /\ (forall a, smooth a None = (lit_0_3 * a + lit_0_7 * a)%num)
  /\ (forall a s, smooth a (Some s) = (lit_0_3 * a + lit_0_7 * s)%num)
  /\ (forall a,
        (lit_0_3 * a + lit_0_7 * a)%num = a ->
        forall n, smoothing (repeat a (S n)) None = Some a).
Proof.
  split; [exact updateLogic_smoothedAngle|].
  split; [exact smooth_first|]. split; [exact smooth_next|].
  intros a Hfix n. simpl. rewrite smooth_first, Hfix.
  now apply smoothing_constant.
Qed.

(** ** Worked examples *)

(** The scenario runs as the specification describes: EXTENDING at 120,
    peak 168, FLEXING at 165, rep completed at 100, tier ok. *)
Lemma spec_scenario :
  state (feed (firstn 3 specScenario) initial) = BENT
  /\ state (feed (firstn 4 specScenario) initial) = EXTENDING
  /\ maxAngleThisRep (feed (firstn 6 specScenario) initial) = Some (of_Z 168)
  /\ state (feed (firstn 6 specScenario) initial) = EXTENDING
  /\ state (feed (firstn 7 specScenario) initial) = FLEXING
  /\ state (feed (firstn 8 specScenario) initial) = FLEXING
  /\ state (feed (firstn 9 specScenario) initial) = BENT
  /\ repCount (feed specScenario initial) = 1%Z
  /\ angleFeedbackEl (feed specScenario initial)
     = Some {| text := MsgExcellent 1; level := ok |}.
Proof. repeat split; by_eval. Qed.

Lemma reachable_run (M : MathLib) (frames : list Frame) (w : World) :
  reachable w -> Forall (fun f => clock (snd f)) frames ->
  reachable (run M frames w).
Proof.
  revert w. induction frames as [|[pose nowSec] rest IH]; intros w Hw Hf.
  - exact Hw.
  - inversion Hf as [|? ? Hc Hrest]; subst. simpl.
    apply IH; trivial. now apply reach_frame.
Qed.

Lemma reachable_flexingWorld : reachable flexingWorld.
Proof.
  replace flexingWorld
    with (run axisMath (risingFrames ++ fallingFrames) initial)
    by (vm_compute; reflexivity).
  apply reachable_run; [apply reach_initial|].
  repeat constructor.
Qed.

Lemma wf_straightPose : wf_pose straightPose.
Proof.
  split.
  - repeat constructor; simpl; intuition discriminate.
  - repeat constructor.
Qed.

Lemma wf_hipOnlyPose : wf_pose hipOnlyPose.
Proof.
  split.
  - repeat constructor; simpl; intuition discriminate.
  - repeat constructor.
Qed.

(** The transitions of C1 on three concrete steps: leaving BENT at 120
    degrees, passing the peak, and completing the rep at exactly 110
    degrees. *)
Lemma repStateMachine_transitions_witness :
  isNaN (of_Z 120) = false
  /\ state initial = BENT
  /\ state (snd (repStateMachine (of_Z 120) (of_Z 4) initial)) = EXTENDING
  /\ state extendingWorld = EXTENDING
  /\ state (snd (repStateMachine (of_Z 120) (of_Z 7) extendingWorld)) = FLEXING
  /\ state flexingWorld = FLEXING
  /\ state (snd (repStateMachine (of_Z 110) (of_Z 10) flexingWorld)) = BENT.
Proof.
  split; [reflexivity|]. split; [reflexivity|]. split.
  { destruct (repStateMachine_transitions (of_Z 120) (of_Z 4) initial eq_refl)
      as (Hb & _ & _).
    destruct (Hb eq_refl) as ((_ & H) & _). apply H. reflexivity. }
  split; [reflexivity|]. split.
  { destruct (repStateMachine_transitions (of_Z 120) (of_Z 7) extendingWorld
                eq_refl) as (_ & He & _).
    destruct (He eq_refl) as ((_ & H) & _). apply H. vm_compute. reflexivity. }
  split; [reflexivity|].
  destruct (repStateMachine_transitions (of_Z 110) (of_Z 10) flexingWorld
              eq_refl) as (_ & _ & Hf).
  destruct (Hf eq_refl) as (_ & _ & H). now apply H.
Defined.

(** The counter of C2 on a session of ten frames that holds one rep. *)
Lemma repCount_counts_completed_cycles_witness :
  let frames := risingFrames ++ fallingFrames ++ [(bentPose, of_Z 10)] in
  repCount (run axisMath frames initial) = 1%Z
  /\ completions axisMath frames initial = 1%Z
  /\ state flexingWorld = FLEXING
  /\ state (snd (updateLogic axisMath bentPose (of_Z 10) flexingWorld)) = BENT
  /\ repCount (snd (updateLogic axisMath bentPose (of_Z 10) flexingWorld))
     = (repCount flexingWorld + 1)%Z.
Proof.
  destruct repCount_counts_completed_cycles as (_ & Hstep & Hrun & _).
  intros frames. split; [reflexivity|]. split.
  { rewrite <- (Hrun axisMath frames). reflexivity. }
  split; [reflexivity|]. split; [reflexivity|].
  destruct (Hstep axisMath bentPose (of_Z 10) flexingWorld) as (H & _).
  apply H. split; reflexivity.
Defined.

(** The tier of C3 at the peak of the example session (164.87 degrees). *)
Lemma extension_tier_witness :
  let m := S754_finite false 5800977608462460 (-45) in
  let w' := snd (repStateMachine (of_Z 120) (of_Z 7) extendingWorld) in
  isNaN m = false
  /\ state extendingWorld = EXTENDING /\ state w' = FLEXING
  /\ maxAngleThisRep w' = Some m
  /\ extensionTier m = ok
  /\ exists t, angleFeedbackEl w' = Some {| text := t; level := ok |}.
Proof.
  intros m w'.
  split; [reflexivity|]. split; [reflexivity|]. split; [reflexivity|].
  split; [reflexivity|]. split; [reflexivity|].
  destruct (extension_tier (of_Z 120) (of_Z 7) extendingWorld m eq_refl)
    as (H & _).
  exact (H eq_refl eq_refl eq_refl).
Defined.

(** The tempo of C4 for the example rep: 8 s in all, 5 s up, 3 s down. *)
Lemma tempo_classification_witness :
  let w' := snd (updateLogic axisMath bentPose (of_Z 10) flexingWorld) in
  reachable flexingWorld
  /\ state flexingWorld = FLEXING /\ state w' = BENT
  /\ repStartTime flexingWorld = Some (of_Z 2)
  /\ flexStartTime flexingWorld = Some (of_Z 7)
  /\ speedFeedbackEl w' = Some {| text := MsgGoodTempo 1; level := ok |}.
Proof.
  intros w'.
  assert (Hs : state flexingWorld = FLEXING) by by_eval.
  assert (Hs' : state w' = BENT) by by_eval.
  assert (Hr : repStartTime flexingWorld = Some (of_Z 2)) by by_eval.
  assert (He : extendStartTime flexingWorld = Some (of_Z 2)) by by_eval.
  assert (Hf : flexStartTime flexingWorld = Some (of_Z 7)) by by_eval.
  split; [exact reachable_flexingWorld|].
  split; [exact Hs|]. split; [exact Hs'|].
  split; [exact Hr|]. split; [exact Hf|].
  destruct (tempo_classification axisMath bentPose (of_Z 10) flexingWorld
              reachable_flexingWorld Hs Hs')
    as (rs & es & fs & Hrs & Hes & Hfs & Hsp & _).
  fold w' in Hsp. rewrite Hsp.
  rewrite Hr in Hrs. rewrite He in Hes. rewrite Hf in Hfs.
  injection Hrs as <-. injection Hes as <-. injection Hfs as <-.
  by_eval.
Defined.

(** The outcomes of C5: a fresh hip, stored with its position and the
    clock value 1 and served from the cache at time 1 but not at time 2; an
    ankle served from the cache; and the same ankle refused one second
    later. *)
Lemma getStableKeypoint_resolve_witness :
  wf_pose straightPose
  /\ (exists lg',
        getStableKeypoint straightPose right_hip (of_Z 1) DEFAULT_MIN_SCORE
          lastGood_init
        = (Some (keypointAt "right_hip" 1 0), lg')
        /\ lg_right_hip lg' = Some (snapshot (keypointAt "right_hip" 1 0))
        /\ lg_right_knee lg' = None /\ lg_right_ankle lg' = None
        /\ timestamp lg' = of_Z 1
        /\ getStableKeypoint None right_hip (of_Z 1) DEFAULT_MIN_SCORE lg'
           = (Some (snapshot (keypointAt "right_hip" 1 0)), lg')
        /\ getStableKeypoint None right_hip (of_Z 2) DEFAULT_MIN_SCORE lg'
           = (None, lg'))
  /\ wf_pose hipOnlyPose
  /\ getStableKeypoint hipOnlyPose right_ankle zero DEFAULT_MIN_SCORE
       ankleCache
     = (Some (snapshot (keypointAt "right_ankle" 0 1)), ankleCache)
  /\ getStableKeypoint hipOnlyPose right_ankle (of_Z 1) DEFAULT_MIN_SCORE
       ankleCache
     = (None, ankleCache).
Proof.
  split; [exact wf_straightPose|]. split.
  { destruct (getStableKeypoint_resolve straightPose right_hip (of_Z 1)
                lastGood_init wf_straightPose) as (H & _).
    destruct (H (keypointAt "right_hip" 1 0)) as
      (lg' & entry & Hres & Hget & Hx & Hy & Hsc & Hn & Hothers & Hts & Hlater);
      [split; [simpl; auto|reflexivity] | reflexivity |].
    assert (He : entry = snapshot (keypointAt "right_hip" 1 0)).
    { destruct entry as [n ex ey es]. cbn in Hx, Hy, Hsc, Hn.
      now subst. }
    subst entry. exists lg'. split; [exact Hres|]. split; [exact Hget|].
    split; [exact (Hothers right_knee ltac:(discriminate))|].
    split; [exact (Hothers right_ankle ltac:(discriminate))|].
    split; [exact Hts|].
    destruct (Hlater None (of_Z 1) eq_refl) as [Hin _].
    destruct (Hlater None (of_Z 2) eq_refl) as [_ Hout].
    split; [apply Hin|apply Hout]; by_eval. }
  split; [exact wf_hipOnlyPose|].
  assert (Hno : forall k, listed hipOnlyPose right_ankle k ->
                          (score k >=? DEFAULT_MIN_SCORE)%num = false).
  { intros k [[<- | []] Hn]. discriminate Hn. }
  split.
  - destruct (getStableKeypoint_resolve hipOnlyPose right_ankle zero
                ankleCache wf_hipOnlyPose) as (_ & H).
    destruct (H Hno) as (Hc & _). apply Hc; reflexivity.
  - destruct (getStableKeypoint_resolve hipOnlyPose right_ankle (of_Z 1)
                ankleCache wf_hipOnlyPose) as (_ & H).
    destruct (H Hno) as (_ & _ & Hc). apply Hc. reflexivity.
Defined.

(** The coupling of C6: an ankle cached at time 0 is stale at time 10, but
    is served again once the hip has been seen at time 10. *)
Lemma fresh_observation_refreshes_shared_timestamp_witness :
  let lg' := snd (getStableKeypoint hipOnlyPose right_hip (of_Z 10)
                    DEFAULT_MIN_SCORE ankleCache) in
  getKeypoint hipOnlyPose (landmark_name right_hip) DEFAULT_MIN_SCORE
  = Some (keypointAt "right_hip" 1 0)
  /\ getStableKeypoint hipOnlyPose right_ankle (of_Z 10) DEFAULT_MIN_SCORE
       ankleCache = (None, ankleCache)
  /\ getStableKeypoint hipOnlyPose right_ankle (of_Z 10) DEFAULT_MIN_SCORE lg'
     = (Some (snapshot (keypointAt "right_ankle" 0 1)), lg').
Proof.
  intros lg'. split; [reflexivity|]. split; [reflexivity|].
  destruct (fresh_observation_refreshes_shared_timestamp hipOnlyPose
              right_hip (of_Z 10) ankleCache (keypointAt "right_hip" 1 0)
              eq_refl) as (_ & _ & _ & H).
  apply H; reflexivity.
Defined.

(** The smoothing of C8 on the first frame of the example session and on
    the constant input 110. *)
Lemma smoothing_blend_witness :
  yieldsSample axisMath bentPose (of_Z 1) (lastGood initial) (of_Z 90)
  /\ smoothedAngle (snd (updateLogic axisMath bentPose (of_Z 1) initial))
     = Some (smooth (of_Z 90) None)
  /\ (lit_0_3 * of_Z 110 + lit_0_7 * of_Z 110)%num = of_Z 110
  /\ smoothing (repeat (of_Z 110) 3) None = Some (of_Z 110).
Proof.
  destruct smoothing_blend as (Hupd & _ & _ & Hconst).
  assert (Hy : yieldsSample axisMath bentPose (of_Z 1) (lastGood initial)
                 (of_Z 90)).
  { eexists _, _, _, _. split; [reflexivity|]. split; reflexivity. }
  split; [exact Hy|]. split; [exact (Hupd _ _ _ _ _ Hy)|].
  split; [reflexivity|].
  apply (Hconst (of_Z 110)). reflexivity.
Defined.

(** The three kinds of frame of C9, met in the middle of a rep. *)
Lemma no_sample_leaves_machine_alone_witness :
  NoSample axisMath None (of_Z 20) (lastGood flexingWorld)
  /\ NoSample axisMath collapsedPose (of_Z 9) (lastGood flexingWorld)
  /\ NoSample axisMath diagonalPose (of_Z 9) (lastGood flexingWorld)
  /\ fst (updateLogic axisMath None (of_Z 20) flexingWorld) = Returned
  /\ state (snd (updateLogic axisMath collapsedPose (of_Z 9) flexingWorld))
     = FLEXING
  /\ smoothedAngle
       (snd (updateLogic axisMath diagonalPose (of_Z 9) flexingWorld))
     = smoothedAngle flexingWorld.
Proof.
  assert (H1 : NoSample axisMath None (of_Z 20) (lastGood flexingWorld)).
  { eapply MissingLandmark; [by_eval|]. left. reflexivity. }
  assert (H2 : NoSample axisMath collapsedPose (of_Z 9)
                 (lastGood flexingWorld)).
  { eapply DegenerateGeometry; [by_eval|]. by_eval. }
  assert (H3 : NoSample axisMath diagonalPose (of_Z 9)
                 (lastGood flexingWorld)).
  { eapply NumericInvalid; [by_eval| |]; [by_eval|]. by_eval. }
  split; [exact H1|]. split; [exact H2|]. split; [exact H3|].
  split; [|split].
  - destruct (no_sample_leaves_machine_alone _ _ _ _ H1) as (H & _).
    exact H.
  - destruct (no_sample_leaves_machine_alone _ _ _ _ H2) as (_ & H & _).
    rewrite H. by_eval.
  - destruct (no_sample_leaves_machine_alone _ _ _ _ H3)
      as (_ & _ & _ & _ & _ & _ & _ & H).
    exact H.
Defined.

(** The fields of C10 in the FLEXING world of the example session. *)
Lemma reachable_rep_fields_witness :
  reachable flexingWorld
  /\ state flexingWorld = FLEXING
  /\ flexStartTime flexingWorld <> None
  /\ or_else (repStartTime flexingWorld) (of_Z 10) = of_Z 2.
Proof.
  assert (Hs : state flexingWorld = FLEXING) by by_eval.
  assert (Hr : repStartTime flexingWorld = Some (of_Z 2)) by by_eval.
  split; [exact reachable_flexingWorld|]. split; [exact Hs|].
  destruct (reachable_rep_fields flexingWorld reachable_flexingWorld)
    as (_ & _ & H).
  destruct (H Hs) as ((_ & _ & Hfs & _) & Hor).
  split; [exact Hfs|].
  destruct (Hor (of_Z 10)) as (rs & es & fs & Hrs & _ & _ & Hrs' & _).
  rewrite Hrs'. rewrite Hr in Hrs. injection Hrs as <-. reflexivity.
Defined.

(** * Further properties of the code *)

(** ** More on the order and on subtraction *)

Lemma ltb_irrefl (a : num) : (a <? a)%num = false.
Proof.
  unfold ltb, SFltb.
  destruct a as [s|s| |s m e]; simpl; try destruct s; try reflexivity;
    rewrite Z.compare_refl;
    change (Pos.compare_cont Eq m m) with (m ?= m)%positive;
    now rewrite Pos.compare_refl.
Qed.

Lemma ltb_asym (a b : num) : (a <? b)%num = true -> (b <? a)%num = false.
Proof.
  intros H. apply (gtb_leb_false b a) in H.
  destruct (b <? a)%num eqn:E; [|reflexivity].
  apply ltb_leb in E. congruence.
Qed.

(** A finite number minus itself is [+0]. *)
Lemma sub_diag (a : num) : isFinite a = true -> (a - a)%num = zero.
Proof.
  destruct a as [s|s| |s m e]; simpl; try discriminate; intros _.
  - now destruct s.
  - unfold sub, SFsub. now rewrite Z.sub_diag.
Qed.

Lemma gap_zero (t : num) :
  isFinite t = true -> (t - t <=? MAX_GAP_SEC)%num = true.
Proof. intros H. now rewrite (sub_diag t H). Qed.

(** ** Looking a keypoint up *)

Lemma find_first (n : string) (pre post : list Keypoint) (k : Keypoint) :
  (forall k', In k' pre -> name k' <> Some n) -> name k = Some n ->
  find (has_name n) (pre ++ k :: post) = Some k.
Proof.
  intros Hpre Hk. induction pre as [|k0 pre IH]; simpl.
  - unfold has_name. now rewrite Hk, String.eqb_refl.
  - destruct (has_name n k0) eqn:E.
    + exfalso. apply (Hpre k0); [now left|].
      unfold has_name in E. destruct (name k0) as [s|]; [|discriminate].
      apply String.eqb_eq in E. now subst.
    + apply IH. intros k' Hin. apply Hpre. now right.
Qed.

(** X1.  What [getKeypoint] returns is a keypoint of the pose that carries the
    requested name and whose score is not below [minScore]; for a null pose,
    a pose without [keypoints], or a pose that lists no keypoint of that
    name, it returns null. *)
Theorem getKeypoint_sound (pose : option Pose) (n : string) (minScore : num) :
  (forall k, getKeypoint pose n minScore = Some k ->
     In k (pose_keypoints pose) /\ name k = Some n
     /\ (score k <? minScore)%num = false)
  /\ ((forall k, In k (pose_keypoints pose) -> name k <> Some n) ->
      getKeypoint pose n minScore = None).
Proof.
  unfold getKeypoint, pose_keypoints. split.
  - intros k. destruct pose as [p|]; [|discriminate].
    destruct (keypoints p) as [kps|]; [|discriminate].
    destruct (find (has_name n) kps) as [k0|] eqn:Hf; [|discriminate].
    destruct (score k0 <? minScore)%num eqn:Hs; [discriminate|].
    intros [= <-]. destruct (find_listed _ _ _ Hf). auto.
  - intros Hno. destruct pose as [p|]; [|reflexivity].
    destruct (keypoints p) as [kps|]; [|reflexivity].
    destruct (find (has_name n) kps) as [k0|] eqn:Hf; [|reflexivity].
    destruct (find_listed _ _ _ Hf) as [Hin Hn]. now elim (Hno k0 Hin).
Qed.

(** X2.  The first keypoint that carries the name decides: whatever follows
    it in the array, [getKeypoint] returns that keypoint when its score is
    not below [minScore] and null otherwise, so a later keypoint of the same
    name is never returned. *)
Theorem getKeypoint_first_match (n : string) (minScore : num)
    (pre post : list Keypoint) (k : Keypoint) :
  (forall k', In k' pre -> name k' <> Some n) -> name k = Some n ->
  getKeypoint (poseOf (pre ++ k :: post)) n minScore
  = (if (score k <? minScore)%num then None else Some k).
Proof.
  intros Hpre Hk. unfold getKeypoint, poseOf. cbn [keypoints].
  now rewrite (find_first n pre post k Hpre Hk).
Qed.

(** X3.  The threshold only rejects a score that compares below it: a
    keypoint whose score is NaN passes every threshold, and every keypoint
    passes a threshold that is NaN. *)
Theorem getKeypoint_nan_passes (n : string) (minScore : num)
    (pre post : list Keypoint) (k : Keypoint) :
  (forall k', In k' pre -> name k' <> Some n) -> name k = Some n ->
  isNaN (score k) = true \/ isNaN minScore = true ->
  getKeypoint (poseOf (pre ++ k :: post)) n minScore = Some k.
Proof.
  intros Hpre Hk Hnan. unfold getKeypoint, poseOf. cbn [keypoints].
  rewrite (find_first n pre post k Hpre Hk).
  destruct (score k <? minScore)%num eqn:E; [|reflexivity].
  apply ltb_not_nan in E. destruct E as [E1 E2].
  destruct Hnan; congruence.
Qed.

(** X4.  Store, then fall back: once [getStableKeypoint] has seen a landmark
    directly at a finite clock value, a call for the same landmark on a pose
    that lacks it, at that clock value or at most 0.3 s later, returns an
    object with the same [x], [y] and [score] but without the [name], and
    leaves the cache as the first call left it. *)
Theorem getStableKeypoint_store_then_fall_back (pose pose' : option Pose)
    (l : Landmark) (nowSec later : num) (lg : LastGood) (direct : Keypoint) :
  getKeypoint pose (landmark_name l) DEFAULT_MIN_SCORE = Some direct ->
  getKeypoint pose' (landmark_name l) DEFAULT_MIN_SCORE = None ->
  (isFinite nowSec = true /\ later = nowSec)
  \/ (later - nowSec <=? MAX_GAP_SEC)%num = true ->
  let lg1 := snd (getStableKeypoint pose l nowSec DEFAULT_MIN_SCORE lg) in
  exists cached,
    getStableKeypoint pose' l later DEFAULT_MIN_SCORE lg1 = (Some cached, lg1)
    /\ x cached = x direct /\ y cached = y direct
    /\ score cached = score direct /\ name cached = None.
Proof.
  intros Hd Hn Hgap lg1.
  assert (Hg : (later - nowSec <=? MAX_GAP_SEC)%num = true).
  { destruct Hgap as [[Hfin ->]|H]; [now apply gap_zero|exact H]. }
  assert (E : lg1 = lg_stamp nowSec (lg_set l (snapshot direct) lg))
    by (subst lg1; unfold getStableKeypoint; now rewrite Hd).
  clearbody lg1. subst lg1. exists (snapshot direct).
  unfold getStableKeypoint. rewrite Hn, lg_get_set_same, timestamp_stamp, Hg.
  repeat split; reflexivity.
Qed.

(** ** The cache over a whole frame *)

Lemma repStateMachine_lastGood (angle nowSec : num) (w : World) :
  lastGood (snd (repStateMachine angle nowSec w)) = lastGood w.
Proof.
  destruct w as [sm lg st rc rs es fs mx ad ri af sf].
  unfold repStateMachine; cbn [state maxAngleThisRep].
  destruct st; [| destruct mx |]; case_ifs; reflexivity.
Qed.

Lemma updateLogic_lastGood (M : MathLib) (pose : option Pose) (nowSec : num)
    (w : World) :
  lastGood (snd (updateLogic M pose nowSec w))
  = snd (resolveLandmarks pose nowSec (lastGood w)).
Proof.
  rewrite updateLogic_resolved.
  destruct (resolveLandmarks pose nowSec (lastGood w))
    as [[[hip knee] ankle] lg'].
  cbv zeta. cbn [snd].
  destruct hip as [hip|]; [|reflexivity].
  destruct knee as [knee|]; [|reflexivity].
  destruct ankle as [ankle|]; [|reflexivity].
  destruct (computeKneeAngle M hip knee ankle) as [a|]; [|reflexivity].
  destruct (isNaN a); [reflexivity|].
  now rewrite repStateMachine_lastGood.
Qed.

Lemma resolveLandmarks_cache (pose : option Pose) (nowSec : num)
    (lg : LastGood) :
  let lg' := snd (resolveLandmarks pose nowSec lg) in
  let seen l := getKeypoint pose (landmark_name l) DEFAULT_MIN_SCORE in
  (forall l, lg_get l lg'
             = match seen l with
               | Some direct => Some (snapshot direct)
               | None => lg_get l lg
               end)
  /\ timestamp lg'
     = match seen right_hip, seen right_knee, seen right_ankle with
       | None, None, None => timestamp lg
       | _, _, _ => nowSec
       end.
Proof.
  cbv zeta. unfold resolveLandmarks, getStableKeypoint.
  name_lookups pose;
    repeat match goal with
           | |- context [match lg_get ?l ?g with Some _ => _ | None => _ end] =>
               destruct (lg_get l g) eqn:?
           | |- context [if ?c then _ else _] => destruct c
           end;
    cbn [snd]; (split; [intros l; destruct l; rewrite ?Ehip, ?Eknee, ?Eankle;
                        try reflexivity; assumption
                       |reflexivity]).
Qed.

Lemma resolveLandmarks_hip (pose : option Pose) (nowSec : num)
    (lg : LastGood) :
  fst (fst (fst (resolveLandmarks pose nowSec lg)))
  = fst (getStableKeypoint pose right_hip nowSec DEFAULT_MIN_SCORE lg).
Proof.
  unfold resolveLandmarks.
  destruct (getStableKeypoint pose right_hip _ _ _) as [h g1].
  destruct (getStableKeypoint pose right_knee _ _ _) as [k g2].
  now destruct (getStableKeypoint pose right_ankle _ _ _) as [a g3].
Qed.

(** X5.  The cache a frame leaves behind, in closed form: the entry of each
    landmark the pose shows directly becomes a copy of that keypoint, every
    other entry stays as it was (none is ever cleared), and the shared
    timestamp becomes the frame's clock value if at least one of the three
    landmarks was seen directly and stays as it was otherwise.  The state
    machine never touches the cache. *)
Theorem updateLogic_cache (M : MathLib) (pose : option Pose) (nowSec : num)
    (w : World) :
  let lg := lastGood w in
  let lg' := lastGood (snd (updateLogic M pose nowSec w)) in
  let seen l := getKeypoint pose (landmark_name l) DEFAULT_MIN_SCORE in
  (forall l, lg_get l lg'
             = match seen l with
               | Some direct => Some (snapshot direct)
               | None => lg_get l lg
               end)
  /\ timestamp lg'
     = match seen right_hip, seen right_knee, seen right_ankle with
       | None, None, None => timestamp lg
       | _, _, _ => nowSec
       end.
Proof.
  cbv zeta. rewrite updateLogic_lastGood. apply resolveLandmarks_cache.
Qed.

(** X6.  Within one frame the hip is resolved first, so a hip seen directly
    refreshes the shared timestamp before the knee and the ankle are looked
    up: at a finite clock value a cached knee or ankle is then returned
    however old the cache timestamp was. *)
Theorem visible_hip_revives_stale_entries (pose : option Pose) (nowSec : num)
    (lg lg' : LastGood) (direct : Keypoint)
    (hip knee ankle : option Keypoint) :
  isFinite nowSec = true ->
  getKeypoint pose (landmark_name right_hip) DEFAULT_MIN_SCORE = Some direct ->
  resolveLandmarks pose nowSec lg = (hip, knee, ankle, lg') ->
  hip = Some direct
  /\ (forall cached,
        lg_get right_knee lg = Some cached ->
        getKeypoint pose (landmark_name right_knee) DEFAULT_MIN_SCORE = None ->
        knee = Some cached)
  /\ (forall cached,
        lg_get right_ankle lg = Some cached ->
        getKeypoint pose (landmark_name right_ankle) DEFAULT_MIN_SCORE = None ->
        ankle = Some cached).
Proof.
  intros Hfin Hd. pose proof (gap_zero nowSec Hfin) as Hgap.
  unfold resolveLandmarks, getStableKeypoint. rewrite Hd.
  cbn [lg_get lg_set lg_stamp lg_right_knee lg_right_ankle timestamp].
  rewrite Hgap.
  destruct (getKeypoint pose (landmark_name right_knee) DEFAULT_MIN_SCORE)
    as [dk|] eqn:Eknee;
  destruct (getKeypoint pose (landmark_name right_ankle) DEFAULT_MIN_SCORE)
    as [da|] eqn:Eankle;
  destruct (lg_right_knee lg) as [ck|] eqn:Eck;
  destruct (lg_right_ankle lg) as [ca|] eqn:Eca;
  cbn [lg_get lg_set lg_stamp lg_right_knee lg_right_ankle timestamp];
  rewrite ?Hgap; intros [= <- <- <- <-];
  (split; [reflexivity|]); split; intros cached Hc Hn;
  try discriminate; congruence.
Qed.

(** X7.  The reverse does not hold within the frame: a hip that is neither
    in the pose nor fresh in the cache resolves to null even when the knee is
    seen directly in the same frame.  The knee's sighting still refreshes the
    shared timestamp, so from the next frame on, for 0.3 s, the same old hip
    entry is returned. *)
Theorem stale_hip_waits_one_frame (pose : option Pose) (nowSec : num)
    (lg lg1 : LastGood) (cached seen : Keypoint)
    (hip knee ankle : option Keypoint) :
  getKeypoint pose (landmark_name right_hip) DEFAULT_MIN_SCORE = None ->
  lg_get right_hip lg = Some cached ->
  (nowSec - timestamp lg <=? MAX_GAP_SEC)%num = false ->
  getKeypoint pose (landmark_name right_knee) DEFAULT_MIN_SCORE = Some seen ->
  resolveLandmarks pose nowSec lg = (hip, knee, ankle, lg1) ->
  hip = None
  /\ forall pose2 later,
       getKeypoint pose2 (landmark_name right_hip) DEFAULT_MIN_SCORE = None ->
       (later - nowSec <=? MAX_GAP_SEC)%num = true ->
       exists knee2 ankle2 lg2,
         resolveLandmarks pose2 later lg1 = (Some cached, knee2, ankle2, lg2).
Proof.
  intros Hh Hc Hold Hk Hres.
  pose proof (resolveLandmarks_hip pose nowSec lg) as Hhip.
  destruct (resolveLandmarks_cache pose nowSec lg) as [Hget Hts].
  rewrite Hres in Hhip, Hget, Hts. cbn [fst snd] in Hhip, Hget, Hts.
  specialize (Hget right_hip). rewrite Hh, Hc in Hget.
  rewrite Hh, Hk in Hts.
  split.
  - rewrite Hhip. unfold getStableKeypoint. now rewrite Hh, Hc, Hold.
  - intros pose2 later Hh2 Hgap.
    pose proof (resolveLandmarks_hip pose2 later lg1) as Hhip2.
    destruct (resolveLandmarks pose2 later lg1) as [[[h2 k2] a2] g2].
    exists k2, a2, g2. cbn [fst] in Hhip2. rewrite Hhip2.
    unfold getStableKeypoint. now rewrite Hh2, Hget, Hts, Hgap.
Qed.

(** X8.  A frame without a sample changes one thing on the page: the angle
    display reads not detected when a landmark is missing and invalid when
    the angle is null or NaN.  The rep counter text and both feedback
    elements keep showing what they showed before. *)
Theorem no_sample_display (M : MathLib) (pose : option Pose) (nowSec : num)
    (w : World) (hip knee ankle : option Keypoint) (lg' : LastGood) :
  NoSample M pose nowSec (lastGood w) ->
  resolveLandmarks pose nowSec (lastGood w) = (hip, knee, ankle, lg') ->
  let w' := snd (updateLogic M pose nowSec w) in
  angleDisplay w'
  = Some match hip, knee, ankle with
         | Some _, Some _, Some _ => AngleInvalid
         | _, _, _ => AngleNotDetected
         end
  /\ repInfo w' = repInfo w
  /\ angleFeedbackEl w' = angleFeedbackEl w
  /\ speedFeedbackEl w' = speedFeedbackEl w.
Proof.
  intros Hno Hres w'. subst w'. rewrite updateLogic_resolved, Hres. cbv zeta.
  destruct Hno as [h k a g E Hmiss | h k a g E Hdeg | h k a g ang E Hang Hnan];
    rewrite Hres in E; injection E as -> -> -> ->.
  - destruct Hmiss as [-> | [-> | ->]];
      repeat match goal with
             | |- context [match ?o with Some _ => _ | None => _ end] =>
                 is_var o; destruct o
             end; repeat split.
  - rewrite Hdeg. repeat split.
  - rewrite Hang, Hnan. repeat split.
Qed.

(** ** What the render loop keeps and what it never does *)

(** Induction over the reachable worlds, one case per kind of write. *)
Lemma reachable_invariant (P : World -> Prop) :
  P initial ->
  (forall w lg, P w -> P (set_lastGood lg w)) ->
  (forall w d, P w -> P (set_angleDisplay d w)) ->
  (forall w s, P w -> P (set_smoothedAngle s w)) ->
  (forall a t w, clock t -> P w -> P (snd (repStateMachine a t w))) ->
  forall w, reachable w -> P w.
Proof.
  intros Hinit Hlg Had Hsm Hstep w Hr.
  induction Hr as [|M pose nowSec w _ IH Hclock]; [exact Hinit|].
  destruct (sample_or_not M pose nowSec (lastGood w)) as [Hno | [a Ha]].
  - destruct (updateLogic_no_sample M pose nowSec w Hno) as (lg & txt & ->).
    cbn [snd]. auto.
  - destruct (updateLogic_sample M pose nowSec w a Ha) as (lg & ->). auto.
Qed.

Lemma repStateMachine_smoothedAngle (angle nowSec : num) (w : World) :
  smoothedAngle (snd (repStateMachine angle nowSec w)) = smoothedAngle w.
Proof.
  destruct w as [sm lg st rc rs es fs mx ad ri af sf].
  unfold repStateMachine; cbn [state maxAngleThisRep].
  destruct st; [| destruct mx |]; case_ifs; reflexivity.
Qed.

Lemma updateLogic_keeps_smoothedAngle (M : MathLib) (pose : option Pose)
    (nowSec : num) (w : World) :
  smoothedAngle w <> None ->
  smoothedAngle (snd (updateLogic M pose nowSec w)) <> None.
Proof.
  intros Hw.
  destruct (sample_or_not M pose nowSec (lastGood w)) as [Hno | [a Ha]].
  - now destruct (updateLogic_no_sample M pose nowSec w Hno)
      as (lg & txt & ->).
  - rewrite (updateLogic_smoothedAngle M pose nowSec w a Ha). discriminate.
Qed.

(** X9.  The smoothed angle is never reset: once it holds a number it holds
    one after every later frame, whether or not that frame yields a sample
    and whether or not it completes a rep, and so along every run. *)
Theorem smoothedAngle_never_reset (M : MathLib) (frames : list Frame)
    (w : World) :
  smoothedAngle w <> None -> smoothedAngle (run M frames w) <> None.
Proof.
  revert w. induction frames as [|[pose nowSec] rest IH]; intros w Hw.
  - exact Hw.
  - simpl. apply IH. now apply updateLogic_keeps_smoothedAngle.
Qed.

Lemma repStateMachine_throws (angle nowSec : num) (w : World) :
  fst (repStateMachine angle nowSec w) = Threw ->
  state w = EXTENDING /\ maxAngleThisRep w = None
  /\ (angle <? of_Z (-1))%num = true.
Proof.
  destruct w as [sm lg st rc rs es fs mx ad ri af sf].
  unfold repStateMachine; cbn [state maxAngleThisRep].
  destruct st; [| destruct mx as [m|] |]; case_ifs;
    try (intros H; discriminate H).
  intros _. repeat split.
  replace (of_Z (-1)) with (zero - one)%num by by_eval. assumption.
Qed.

(** X10.  The one statement of [updateLogic] that can throw is
    [maxAngleThisRep.toFixed(1)].  It throws only when the state is EXTENDING
    while [maxAngleThisRep] is null and the smoothed angle is below -1; the
    smoothed angle has been stored by then.  No reachable world is such a
    world: in the render loop [updateLogic] runs to its end whatever the pose
    and the clock value. *)
Theorem updateLogic_throws_only_on_unset_maximum (M : MathLib)
    (pose : option Pose) (nowSec : num) (w : World) :
  (fst (updateLogic M pose nowSec w) = Threw ->
   state w = EXTENDING /\ maxAngleThisRep w = None
   /\ exists a, smoothedAngle (snd (updateLogic M pose nowSec w)) = Some a
                /\ (a <? of_Z (-1))%num = true)
  /\ (reachable w -> fst (updateLogic M pose nowSec w) = Returned).
Proof.
  split; [|apply updateLogic_returns].
  destruct (sample_or_not M pose nowSec (lastGood w)) as [Hno | [a Ha]].
  - destruct (updateLogic_no_sample M pose nowSec w Hno) as (lg & txt & ->).
    intros H; discriminate H.
  - destruct (updateLogic_sample M pose nowSec w a Ha) as (lg & ->).
    intros H. rewrite repStateMachine_smoothedAngle.
    apply repStateMachine_throws in H. destruct H as (Hs & Hm & Hlt).
    repeat split; [exact Hs|exact Hm|]. eexists. split; [reflexivity|exact Hlt].
Qed.

(** X11.  [repStartTime] and [extendStartTime] always hold the same value:
    both are set from the same clock reading on leaving BENT and both are
    cleared together, so the extension time of a rep is measured from the
    rep's start. *)
Theorem extendStartTime_is_repStartTime (w : World) :
  reachable w -> extendStartTime w = repStartTime w.
Proof.
  revert w.
  apply (reachable_invariant (fun w => extendStartTime w = repStartTime w)).
  - reflexivity.
  - now intros [].
  - now intros [].
  - now intros [].
  - intros a t [sm lg st rc rs es fs mx ad ri af sf] _.
    unfold repStateMachine; cbn [state maxAngleThisRep extendStartTime
                                   repStartTime].
    intros ->. destruct st; [| destruct mx |]; case_ifs; reflexivity.
Qed.

(** X12.  The rep counter shown on the page is never out of date: in every
    reachable world either no rep has been completed and the script has not
    written the counter text yet, or the text shows the current, positive
    [repCount]. *)
Theorem repInfo_shows_repCount (w : World) :
  reachable w ->
  (repCount w = 0%Z /\ repInfo w = None)
  \/ ((0 < repCount w)%Z /\ repInfo w = Some (repCount w)).
Proof.
  revert w.
  apply (reachable_invariant
           (fun w => (repCount w = 0%Z /\ repInfo w = None)
                     \/ ((0 < repCount w)%Z /\ repInfo w = Some (repCount w)))).
  - now left.
  - now intros [].
  - now intros [].
  - now intros [].
  - intros a t [sm lg st rc rs es fs mx ad ri af sf] _.
    unfold repStateMachine; cbn [state maxAngleThisRep repCount repInfo].
    intros H; destruct st; [| destruct mx |]; case_ifs;
      destruct H as [[H1 H2] | [H1 H2]];
      first [ left; split; assumption
            | right; split; [lia | first [assumption | reflexivity]] ].
Qed.

Lemma updateLogic_phase (M : MathLib) (pose : option Pose) (nowSec : num)
    (w : World) :
  let w' := snd (updateLogic M pose nowSec w) in
  (3 * repCount w' + phase (state w')
   <= 3 * repCount w + phase (state w) + 1)%Z.
Proof.
  intros w'. destruct (updateLogic_step M pose nowSec w) as [Hc Hs].
  fold w' in Hc, Hs. rewrite Hc. unfold completes. revert Hs.
  destruct (state w), (state w'); cbn [phase]; cbv iota;
    intros [Hs | [[H1 H2] | [[H1 H2] | [H1 H2]]]];
    try discriminate; lia.
Qed.

(** X13.  A rep takes at least three frames: along any run the counter grows
    by at most one per three frames, since a frame moves the machine at most
    one step along BENT, EXTENDING, FLEXING, BENT.  From the initial world,
    three times the counter never exceeds the number of frames. *)
Theorem three_frames_per_rep (M : MathLib) (frames : list Frame) (w : World) :
  (3 * repCount (run M frames w) + phase (state (run M frames w))
   <= 3 * repCount w + phase (state w) + Z.of_nat (List.length frames))%Z
  /\ (3 * repCount (run M frames initial) <= Z.of_nat (List.length frames))%Z.
Proof.
  assert (H : forall w,
    (3 * repCount (run M frames w) + phase (state (run M frames w))
     <= 3 * repCount w + phase (state w) + Z.of_nat (List.length frames))%Z).
  { induction frames as [|[pose nowSec] rest IH]; intros w0.
    - simpl. lia.
    - cbn [run List.length].
      specialize (IH (snd (updateLogic M pose nowSec w0))).
      pose proof (updateLogic_phase M pose nowSec w0) as Hp. cbv zeta in Hp.
      lia. }
  split; [apply H|].
  specialize (H initial). cbn [repCount state initial phase] in H.
  assert (0 <= phase (state (run M frames initial)))%Z
    by (destruct (state _); simpl; lia).
  lia.
Qed.

(** X14.  While EXTENDING, [maxAngleThisRep] is a running maximum: after a
    step the sample is not above it and it is not below its previous value.
    While FLEXING it is frozen, so the tier at completion is that of the peak
    reached before the machine turned; on leaving BENT it starts at the
    sample. *)
Theorem maxAngleThisRep_running_maximum (angle nowSec : num) (w : World) :
  let w' := snd (repStateMachine angle nowSec w) in
  (state w = EXTENDING ->
     (angle >? toNumber (maxAngleThisRep w'))%num = false
     /\ (toNumber (maxAngleThisRep w') <? toNumber (maxAngleThisRep w))%num
        = false)
  /\ (state w = FLEXING -> state w' = FLEXING ->
      maxAngleThisRep w' = maxAngleThisRep w)
  /\ (state w = BENT -> state w' = EXTENDING ->
      maxAngleThisRep w' = Some angle).
Proof.
  destruct w as [sm lg st rc rs es fs mx ad ri af sf].
  unfold repStateMachine; cbn [state maxAngleThisRep].
  split; [|split]; intros ->.
  - destruct (angle >? toNumber mx)%num eqn:Hgt.
    + assert (H1 : (angle >? angle)%num = false) by apply ltb_irrefl.
      assert (H2 : (angle <? toNumber mx)%num = false)
        by (apply ltb_asym; exact Hgt).
      cbn. case_ifs; cbn; auto.
    + assert (H2 : (toNumber mx <? toNumber mx)%num = false)
        by apply ltb_irrefl.
      destruct mx as [m|]; cbn in *; case_ifs; cbn; auto.
  - case_ifs; [intros H; discriminate H|reflexivity].
  - case_ifs; [intros H; discriminate H|reflexivity].
Qed.

(** ** More on the knee angle *)

Lemma not_ltb_leb (a b : num) :
  isNaN a = false -> isNaN b = false ->
  (b <? a)%num = false -> (a <=? b)%num = true.
Proof.
  intros Ha Hb H. destruct (a <=? b)%num eqn:E; [reflexivity|].
  apply leb_false_gtb in E; trivial. unfold gtb in E. unfold ltb in H.
  congruence.
Qed.

(** [Math.min(1, Math.max(-1, c))] is NaN exactly when [c] is, and lies
    between -1 and 1 otherwise. *)
Lemma clamp_range (c : num) :
  let k := Num.min one (Num.max (of_Z (-1)) c) in
  isNaN k = isNaN c
  /\ (isNaN c = false ->
      (of_Z (-1) <=? k)%num = true /\ (k <=? one)%num = true).
Proof.
  cbv zeta. destruct (isNaN c) eqn:Hc.
  - unfold Num.max. rewrite Hc, orb_true_r. split; [reflexivity|discriminate].
  - assert (Hm : exists m, Num.max (of_Z (-1)) c = m /\ isNaN m = false
                           /\ (of_Z (-1) <=? m)%num = true).
    { unfold Num.max. rewrite Hc. cbn [isNaN of_Z orb].
      change (isNaN (of_Z (-1))) with false. cbn [orb].
      destruct (of_Z (-1) <? c)%num eqn:E1.
      - exists c. auto using ltb_leb.
      - exists (of_Z (-1)). split; [|split; reflexivity].
        now destruct (c <? of_Z (-1))%num. }
    destruct Hm as (m & -> & Hm & Hlo).
    unfold Num.min. rewrite Hm. change (isNaN one) with false. cbn [orb].
    destruct (one <? m)%num eqn:E1.
    + repeat split; reflexivity.
    + assert (Hhi : (m <=? one)%num = true) by now apply not_ltb_leb.
      assert (Hk : (if (m <? one)%num then m
                    else match one with S754_zero true => one | _ => m end)
                   = m) by now destruct (m <? one)%num.
      rewrite Hk. auto.
Qed.

(** X15.  [Math.acos] is never handed a number outside [-1, 1]: whenever
    [computeKneeAngle] returns a number, that number is
    [(Math.acos(k) * 180) / Math.PI] for a [k] that is either NaN or between
    -1 and 1. *)
Theorem computeKneeAngle_acos_domain (M : MathLib)
    (hip knee ankle : Keypoint) (angle : num) :
  computeKneeAngle M hip knee ankle = Some angle ->
  exists k,
    angle = (acos M k * of_Z 180 / PI)%num
    /\ (isNaN k = true
        \/ ((of_Z (-1) <=? k)%num = true /\ (k <=? one)%num = true)).
Proof.
  unfold computeKneeAngle. cbv zeta.
  destruct (_ || _); [discriminate|]. intros [= <-].
  eexists. split; [reflexivity|].
  match goal with
  | |- context [Num.min one (Num.max (of_Z (-1)) ?c)] =>
      destruct (clamp_range c) as [Hn Hr]; destruct (isNaN c) eqn:Hc
  end.
  - left. exact Hn.
  - right. now apply Hr.
Qed.

(** X16.  The angle depends on the three positions only, not on the names or
    scores of the keypoints (so a cached copy does as well as the original),
    and exchanging the hip and the ankle leaves it unchanged, for every Math
    library. *)
Theorem computeKneeAngle_positions (M : MathLib)
    (hip knee ankle hip' knee' ankle' : Keypoint) :
  x hip' = x hip -> y hip' = y hip ->
  x knee' = x knee -> y knee' = y knee ->
  x ankle' = x ankle -> y ankle' = y ankle ->
  computeKneeAngle M hip' knee' ankle' = computeKneeAngle M hip knee ankle
  /\ computeKneeAngle M ankle' knee' hip' = computeKneeAngle M hip knee ankle.
Proof.
  intros Hx1 Hy1 Hx2 Hy2 Hx3 Hy3.
  assert (H : computeKneeAngle M hip' knee' ankle'
              = computeKneeAngle M hip knee ankle)
    by (unfold computeKneeAngle; now rewrite Hx1, Hy1, Hx2, Hy2, Hx3, Hy3).
  split; [exact H|]. now rewrite computeKneeAngle_swap.
Qed.

(** X17.  Degenerate geometry: when the hip or the ankle has the same finite
    coordinates as the knee, the vector is (+0, +0) and, [Math.hypot] being
    +0 there, [computeKneeAngle] returns null, whatever the third point. *)
Theorem computeKneeAngle_coincident (M : MathLib) (hip knee ankle : Keypoint) :
  eqb (hypot M zero zero) zero = true ->
  isFinite (x knee) = true -> isFinite (y knee) = true ->
  (x hip = x knee /\ y hip = y knee)
  \/ (x ankle = x knee /\ y ankle = y knee) ->
  computeKneeAngle M hip knee ankle = None.
Proof.
  intros Hz Hfx Hfy Hsame. apply computeKneeAngle_null.
  destruct Hsame as [[-> ->] | [-> ->]]; [left|right];
    now rewrite (sub_diag _ Hfx), (sub_diag _ Hfy).
Qed.




(** ** The skeleton overlay and the render loop *)

Lemma filter_drawDot (kps : list Keypoint) :
  filter isArc (flat_map drawDot kps)
  = map (fun k => Arc (x k) (y k) (of_Z 4) zero (of_Z 2 * PI)%num)
        (filter (fun k => (score k >? lit_0_3)%num) kps).
Proof.
  induction kps as [|k kps IH]; [reflexivity|].
  cbn [flat_map filter]. rewrite filter_app, IH. unfold drawDot.
  now destruct (score k >? lit_0_3)%num.
Qed.

Lemma filter_drawDot_segments (kps : list Keypoint) :
  filter isSegmentPoint (flat_map drawDot kps) = [].
Proof.
  induction kps as [|k kps IH]; [reflexivity|].
  cbn [flat_map]. rewrite filter_app, IH. unfold drawDot.
  now destruct (score k >? lit_0_3)%num.
Qed.

Lemma drawSegment_no_arc (a b : option Keypoint) :
  filter isArc (drawSegment a b) = [].
Proof. now destruct a, b. Qed.

(** X18.  [drawSkeleton] draws nothing for a null pose, throws on a pose
    without [keypoints], and otherwise places one dot of radius 4 at each
    keypoint of the pose whose score is strictly above 0.3, in the order of
    the array, and at no other place. *)
Theorem drawSkeleton_dots (pose : option Pose) :
  match pose with
  | None => drawSkeleton pose = (Returned, [])
  | Some p =>
      match keypoints p with
      | None => fst (drawSkeleton pose) = Threw
      | Some kps =>
          fst (drawSkeleton pose) = Returned
          /\ filter isArc (snd (drawSkeleton pose))
             = map (fun k => Arc (x k) (y k) (of_Z 4) zero (of_Z 2 * PI)%num)
                   (filter (fun k => (score k >? lit_0_3)%num) kps)
      end
  end.
Proof.
  destruct pose as [p|]; [|reflexivity].
  unfold drawSkeleton. destruct (keypoints p) as [kps|]; [|reflexivity].
  split; [reflexivity|]. cbn [snd].
  rewrite !filter_app, filter_drawDot, !drawSegment_no_arc.
  cbn [filter isArc]. now rewrite !app_nil_r.
Qed.

(** X19.  The segments use the keypoints of the current pose only, never the
    cache: the hip-knee segment is traced exactly when [getKeypoint] finds
    both the hip and the knee in the pose with the threshold 0.3, the
    knee-ankle segment exactly when it finds both the knee and the ankle, in
    this order, and nothing else is traced. *)
Theorem drawSkeleton_segments (p : Pose) (kps : list Keypoint) :
  keypoints p = Some kps ->
  let found n := getKeypoint (Some p) n lit_0_3 in
  filter isSegmentPoint (snd (drawSkeleton (Some p)))
  = match found "right_hip"%string, found "right_knee"%string with
    | Some rh, Some rk => [MoveTo (x rh) (y rh); LineTo (x rk) (y rk)]
    | _, _ => []
    end
    ++ match found "right_knee"%string, found "right_ankle"%string with
       | Some rk, Some ra => [MoveTo (x rk) (y rk); LineTo (x ra) (y ra)]
       | _, _ => []
       end.
Proof.
  intros Hk. cbv zeta. unfold drawSkeleton. rewrite Hk. cbn [snd].
  rewrite !filter_app, filter_drawDot_segments. cbn [filter isSegmentPoint app].
  destruct (getKeypoint (Some p) "right_hip" lit_0_3),
           (getKeypoint (Some p) "right_knee" lit_0_3),
           (getKeypoint (Some p) "right_ankle" lit_0_3); reflexivity.
Qed.

(** X20.  The two thresholds differ at the boundary: a keypoint whose score
    is neither above nor below 0.3 (exactly 0.3, or NaN) gets no dot, yet
    [getKeypoint] returns it, so it is joined by segments and used for the
    angle. *)
Theorem boundary_score_joined_not_dotted (n : string)
    (pre post : list Keypoint) (k : Keypoint) :
  (forall k', In k' pre -> name k' <> Some n) -> name k = Some n ->
  (score k >? lit_0_3)%num = false -> (score k <? lit_0_3)%num = false ->
  drawDot k = []
  /\ getKeypoint (poseOf (pre ++ k :: post)) n lit_0_3 = Some k.
Proof.
  intros Hpre Hk Hgt Hlt. split.
  - unfold drawDot. now rewrite Hgt.
  - unfold getKeypoint, poseOf. cbn [keypoints].
    now rewrite (find_first n pre post k Hpre Hk), Hlt.
Qed.

(** X21.  One turn of the render loop from a reachable world: only the first
    pose of the array is used; if it is null or carries a [keypoints] array
    the turn reaches [requestAnimationFrame] and, the clock being positive,
    leaves a reachable world; if it has no [keypoints], [drawSkeleton] throws
    first, so the world is left untouched and the loop is not scheduled
    again, although [updateLogic] on its own would have returned. *)
Theorem renderTurn_continues (M : MathLib) (poses : list Pose) (nowSec : num)
    (w : World) :
  reachable w -> clock nowSec ->
  let t := renderTurn M poses nowSec w in
  currentPose t = hd_error poses
  /\ match hd_error poses with
     | Some {| keypoints := None |} =>
         outcome t = Threw /\ after t = w
         /\ fst (updateLogic M (hd_error poses) nowSec w) = Returned
     | _ =>
         outcome t = Returned
         /\ after t = snd (updateLogic M (hd_error poses) nowSec w)
         /\ reachable (after t)
     end.
Proof.
  intros Hr Hclock t. subst t. unfold renderTurn.
  pose proof (updateLogic_returns M (hd_error poses) nowSec w Hr) as Hret.
  pose proof (reach_frame M (hd_error poses) nowSec w Hr Hclock) as Hnext.
  destruct (hd_error poses) as [[[kps|]]|]; unfold drawSkeleton;
    cbn [keypoints].
  - destruct (updateLogic M _ nowSec w) as [o w']. cbn in *. auto.
  - cbn. auto.
  - destruct (updateLogic M _ nowSec w) as [o w']. cbn in *. auto.
Qed.

Lemma find_skip (f : Keypoint -> bool) (pre post : list Keypoint)
    (e : Keypoint) :
  f e = false -> find f (pre ++ e :: post) = find f (pre ++ post).
Proof.
  intros He. induction pre as [|k pre IH]; simpl; [now rewrite He|].
  now destruct (f k).
Qed.

Lemma getKeypoint_skip (n : string) (minScore : num)
    (pre post : list Keypoint) (e : Keypoint) :
  name e <> Some n ->
  getKeypoint (poseOf (pre ++ e :: post)) n minScore
  = getKeypoint (poseOf (pre ++ post)) n minScore.
Proof.
  intros He. unfold getKeypoint, poseOf. cbn [keypoints].
  rewrite find_skip; [reflexivity|].
  unfold has_name. destruct (name e) as [s|]; [|reflexivity].
  destruct (String.eqb_spec s n); [|reflexivity]. subst. now elim He.
Qed.

(** X22.  [updateLogic] reads the right hip, knee and ankle and nothing else:
    a keypoint of any other name, wherever it stands in the array and
    whatever its position and score, changes neither the outcome nor the
    world the frame leaves. *)
Theorem updateLogic_ignores_other_keypoints (M : MathLib)
    (pre post : list Keypoint) (e : Keypoint) (nowSec : num) (w : World) :
  ~ tracked (name e) ->
  updateLogic M (poseOf (pre ++ e :: post)) nowSec w
  = updateLogic M (poseOf (pre ++ post)) nowSec w.
Proof.
  intros He.
  assert (H : forall l minScore,
             getKeypoint (poseOf (pre ++ e :: post)) (landmark_name l) minScore
             = getKeypoint (poseOf (pre ++ post)) (landmark_name l) minScore).
  { intros l minScore. apply getKeypoint_skip. intros E. apply He.
    now exists l. }
  unfold updateLogic, getStableKeypoint. now rewrite !H.
Qed.

(** X23.  A completed rep rewrites the counter text and both feedback
    elements in the same step, and all three carry the same number, the new
    [repCount]; the angle display is left as it was. *)
Theorem completion_texts_agree (angle nowSec : num) (w : World) :
  state w = FLEXING ->
  let w' := snd (repStateMachine angle nowSec w) in
  state w' = BENT ->
  let n := (repCount w + 1)%Z in
  repCount w' = n /\ repInfo w' = Some n
  /\ (exists l, speedFeedbackEl w' = Some {| text := MsgTooFast n; level := l |}
                \/ speedFeedbackEl w'
                   = Some {| text := MsgGoodTempo n; level := l |})
  /\ (exists l,
        angleFeedbackEl w' = Some {| text := MsgExcellent n; level := l |}
        \/ angleFeedbackEl w'
           = Some {| text := MsgGoodFurther n; level := l |}
        \/ angleFeedbackEl w'
           = Some {| text := MsgExtendMore n; level := l |})
  /\ angleDisplay w' = angleDisplay w.
Proof.
  destruct w as [sm lg st rc rs es fs mx ad ri af sf].
  unfold repStateMachine; cbn [state maxAngleThisRep repCount].
  intros ->. cbv zeta.
  destruct (angle <=? BENT_THRESHOLD)%num; cbn; [|intros H; discriminate H].
  intros _. destruct (_ || _ || _); cbn; case_ifs;
    repeat split; eauto.
Qed.

(** ** Worked examples for the further properties *)

Lemma reachable_completedWorld : reachable completedWorld.
Proof.
  replace completedWorld
    with (run axisMath (risingFrames ++ fallingFrames ++ [(bentPose, of_Z 10)])
            initial)
    by (vm_compute; reflexivity).
  apply reachable_run; [apply reach_initial|].
  repeat constructor.
Qed.

(** A low-scored hip listed first hides a confident one listed after it. *)
Lemma getKeypoint_first_match_witness :
  getKeypoint (poseOf ([nose] ++ hipScored zero :: [hipScored one]))
    "right_hip" lit_0_3 = None.
Proof.
  rewrite (getKeypoint_first_match "right_hip" lit_0_3 [nose]
             [hipScored one] (hipScored zero)); [reflexivity| |reflexivity].
  intros k' [<- | []]. discriminate.
Defined.

(** A hip whose score is NaN is accepted. *)
Lemma getKeypoint_nan_passes_witness :
  getKeypoint (poseOf ([nose] ++ hipScored NaN :: [])) "right_hip" lit_0_3
  = Some (hipScored NaN).
Proof.
  apply (getKeypoint_nan_passes "right_hip" lit_0_3 [nose] [] (hipScored NaN));
    [|reflexivity|now left].
  intros k' [<- | []]. discriminate.
Defined.

(** The hip seen at time 1 is served from the cache at time 1 when the pose
    disappears. *)
Lemma getStableKeypoint_store_then_fall_back_witness :
  let lg1 := snd (getStableKeypoint hipOnlyPose right_hip (of_Z 1)
                    DEFAULT_MIN_SCORE lastGood_init) in
  exists cached,
    getStableKeypoint None right_hip (of_Z 1) DEFAULT_MIN_SCORE lg1
    = (Some cached, lg1)
    /\ x cached = of_Z 1 /\ name cached = None.
Proof.
  intros lg1.
  destruct (getStableKeypoint_store_then_fall_back hipOnlyPose None right_hip
              (of_Z 1) (of_Z 1) lastGood_init (keypointAt "right_hip" 1 0)
              eq_refl eq_refl (or_introl (conj eq_refl eq_refl)))
    as (cached & H & Hx & _ & _ & Hn).
  exists cached. fold lg1 in H. rewrite H, Hx, Hn. repeat split.
Defined.

(** An ankle cached at time 0 is served at time 100 because the hip is in
    the pose. *)
Lemma visible_hip_revives_stale_entries_witness :
  isFinite (of_Z 100) = true
  /\ (of_Z 100 - timestamp ankleCache <=? MAX_GAP_SEC)%num = false
  /\ snd (fst (resolveLandmarks hipOnlyPose (of_Z 100) ankleCache))
     = Some (snapshot (keypointAt "right_ankle" 0 1)).
Proof.
  split; [reflexivity|]. split; [by_eval|].
  destruct (resolveLandmarks hipOnlyPose (of_Z 100) ankleCache)
    as [[[hip knee] ankle] lg'] eqn:E.
  destruct (visible_hip_revives_stale_entries hipOnlyPose (of_Z 100)
              ankleCache lg' (keypointAt "right_hip" 1 0) hip knee ankle
              eq_refl eq_refl E) as (_ & _ & H).
  cbn [fst snd]. apply H; reflexivity.
Defined.

(** A hip cached at time 0 is refused at time 100 although the knee is in
    the pose, and served again on the next frame. *)
Lemma stale_hip_waits_one_frame_witness :
  fst (fst (fst (resolveLandmarks kneeOnlyPose (of_Z 100) hipCache))) = None
  /\ fst (fst (fst (resolveLandmarks None (of_Z 100)
                      (snd (resolveLandmarks kneeOnlyPose (of_Z 100)
                              hipCache)))))
     = Some (snapshot (keypointAt "right_hip" 1 0)).
Proof.
  destruct (resolveLandmarks kneeOnlyPose (of_Z 100) hipCache)
    as [[[hip knee] ankle] lg1] eqn:E.
  assert (Hold : (of_Z 100 - timestamp hipCache <=? MAX_GAP_SEC)%num = false)
    by by_eval.
  destruct (stale_hip_waits_one_frame kneeOnlyPose (of_Z 100) hipCache lg1
              (snapshot (keypointAt "right_hip" 1 0))
              (keypointAt "right_knee" 0 0) hip knee ankle
              eq_refl eq_refl Hold eq_refl E) as [-> H].
  split; [reflexivity|]. cbn [fst snd].
  assert (Hgap : (of_Z 100 - of_Z 100 <=? MAX_GAP_SEC)%num = true) by by_eval.
  destruct (H None (of_Z 100) eq_refl Hgap) as (k2 & a2 & g2 & ->).
  reflexivity.
Defined.

(** In the middle of the example rep a frame without a pose shows not
    detected and leaves the feedback of the rep on the page. *)
Lemma no_sample_display_witness :
  let w' := snd (updateLogic axisMath None (of_Z 20) flexingWorld) in
  angleDisplay w' = Some AngleNotDetected
  /\ angleFeedbackEl w' = Some {| text := MsgGreatExtension; level := ok |}.
Proof.
  intros w'.
  assert (Hno : NoSample axisMath None (of_Z 20) (lastGood flexingWorld)).
  { eapply MissingLandmark; [by_eval|]. left. reflexivity. }
  destruct (resolveLandmarks None (of_Z 20) (lastGood flexingWorld))
    as [[[hip knee] ankle] lg'] eqn:E.
  destruct (no_sample_display axisMath None (of_Z 20) flexingWorld
              hip knee ankle lg' Hno E) as (Hd & _ & Ha & _).
  fold w' in Hd, Ha. rewrite Hd, Ha.
  assert (Eh : hip = None) by (vm_compute in E; congruence).
  subst hip. split; by_eval.
Defined.

(** The smoothed value survives the frames that bend the leg back. *)
Lemma smoothedAngle_never_reset_witness :
  smoothedAngle extendingWorld <> None
  /\ smoothedAngle (run axisMath fallingFrames extendingWorld) <> None.
Proof.
  assert (H : smoothedAngle extendingWorld <> None) by discriminate.
  split; [exact H|].
  exact (smoothedAngle_never_reset axisMath fallingFrames extendingWorld H).
Defined.

(** Outside the reachable worlds the throw does happen. *)
Lemma updateLogic_throws_unset_maximum :
  fst (updateLogic axisMath bentPose (of_Z 1) unsetMaximumWorld) = Threw.
Proof. by_eval. Qed.

(** Both start times of the example rep are 2. *)
Lemma extendStartTime_is_repStartTime_witness :
  reachable flexingWorld
  /\ extendStartTime flexingWorld = Some (of_Z 2)
  /\ repStartTime flexingWorld = Some (of_Z 2).
Proof.
  split; [exact reachable_flexingWorld|].
  rewrite (extendStartTime_is_repStartTime flexingWorld
             reachable_flexingWorld).
  split; by_eval.
Defined.

(** After the example rep the page shows the count 1. *)
Lemma repInfo_shows_repCount_witness :
  reachable completedWorld /\ repInfo completedWorld = Some 1%Z.
Proof.
  split; [exact reachable_completedWorld|].
  destruct (repInfo_shows_repCount completedWorld reachable_completedWorld)
    as [[H0 _] | [_ H]].
  - vm_compute in H0. discriminate H0.
  - rewrite H. by_eval.
Defined.

(** The straight leg: the number returned is [acos(-1) * 180 / PI]. *)
Lemma computeKneeAngle_acos_domain_witness :
  computeKneeAngle axisMath (keypointAt "right_hip" 1 0)
    (keypointAt "right_knee" 0 0) (keypointAt "right_ankle" (-1) 0)
  = Some (of_Z 180)
  /\ exists k, of_Z 180 = (acos axisMath k * of_Z 180 / PI)%num.
Proof.
  assert (H : computeKneeAngle axisMath (keypointAt "right_hip" 1 0)
                (keypointAt "right_knee" 0 0) (keypointAt "right_ankle" (-1) 0)
              = Some (of_Z 180)) by by_eval.
  split; [exact H|].
  destruct (computeKneeAngle_acos_domain axisMath _ _ _ _ H) as (k & Hk & _).
  now exists k.
Defined.

(** The right angle computed from cached copies, ends exchanged. *)
Lemma computeKneeAngle_positions_witness :
  computeKneeAngle axisMath (snapshot (keypointAt "right_ankle" 0 1))
    (snapshot (keypointAt "right_knee" 0 0))
    (snapshot (keypointAt "right_hip" 1 0))
  = computeKneeAngle axisMath (keypointAt "right_hip" 1 0)
      (keypointAt "right_knee" 0 0) (keypointAt "right_ankle" 0 1).
Proof.
  apply (computeKneeAngle_positions axisMath (keypointAt "right_hip" 1 0)
           (keypointAt "right_knee" 0 0) (keypointAt "right_ankle" 0 1)
           (snapshot (keypointAt "right_hip" 1 0))
           (snapshot (keypointAt "right_knee" 0 0))
           (snapshot (keypointAt "right_ankle" 0 1))); reflexivity.
Defined.

(** Hip on the knee. *)
Lemma computeKneeAngle_coincident_witness :
  eqb (hypot axisMath zero zero) zero = true
  /\ computeKneeAngle axisMath (keypointAt "right_hip" 3 4)
       (keypointAt "right_knee" 3 4) (keypointAt "right_ankle" 0 1) = None.
Proof.
  assert (H : eqb (hypot axisMath zero zero) zero = true) by by_eval.
  split; [exact H|].
  apply (computeKneeAngle_coincident axisMath); auto.
Defined.

(** The straight leg is traced hip to knee, then knee to ankle. *)
Lemma drawSkeleton_segments_witness :
  filter isSegmentPoint (snd (drawSkeleton straightPose))
  = [MoveTo (of_Z 1) zero; LineTo zero zero;
     MoveTo zero zero; LineTo (of_Z (-1)) zero].
Proof.
  unfold straightPose.
  rewrite (drawSkeleton_segments {| keypoints := Some _ |} _ eq_refl).
  by_eval.
Defined.

(** A hip scored exactly 0.3. *)
Lemma boundary_score_joined_not_dotted_witness :
  drawDot (hipScored lit_0_3) = []
  /\ getKeypoint (poseOf ([nose] ++ hipScored lit_0_3 :: [])) "right_hip"
       lit_0_3 = Some (hipScored lit_0_3).
Proof.
  apply (boundary_score_joined_not_dotted "right_hip" [nose] []
           (hipScored lit_0_3)); try reflexivity.
  intros k' [<- | []]. discriminate.
Defined.

(** The turn that completes the example rep, and a turn on a pose without
    keypoints. *)
Lemma renderTurn_continues_witness :
  reachable flexingWorld /\ clock (of_Z 10)
  /\ outcome (renderTurn axisMath
                [{| keypoints := Some [keypointAt "right_hip" 1 0;
                                       keypointAt "right_knee" 0 0;
                                       keypointAt "right_ankle" 0 1] |}]
                (of_Z 10) flexingWorld) = Returned
  /\ outcome (renderTurn axisMath [{| keypoints := None |}] (of_Z 10)
                flexingWorld) = Threw.
Proof.
  assert (Hc : clock (of_Z 10)) by reflexivity.
  split; [exact reachable_flexingWorld|]. split; [exact Hc|]. split.
  - destruct (renderTurn_continues axisMath
                [{| keypoints := Some [keypointAt "right_hip" 1 0;
                                       keypointAt "right_knee" 0 0;
                                       keypointAt "right_ankle" 0 1] |}]
                (of_Z 10) flexingWorld reachable_flexingWorld Hc)
      as (_ & H & _).
    exact H.
  - destruct (renderTurn_continues axisMath [{| keypoints := None |}]
                (of_Z 10) flexingWorld reachable_flexingWorld Hc)
      as (_ & H & _).
    exact H.
Defined.

(** A nose in the array changes nothing. *)
Lemma updateLogic_ignores_other_keypoints_witness :
  ~ tracked (name nose)
  /\ updateLogic axisMath
       (poseOf ([keypointAt "right_hip" 1 0] ++ nose
                :: [keypointAt "right_knee" 0 0; keypointAt "right_ankle" 0 1]))
       (of_Z 10) flexingWorld
     = updateLogic axisMath bentPose (of_Z 10) flexingWorld.
Proof.
  assert (H : ~ tracked (name nose)).
  { intros [[] E]; discriminate E. }
  split; [exact H|].
  exact (updateLogic_ignores_other_keypoints axisMath
           [keypointAt "right_hip" 1 0]
           [keypointAt "right_knee" 0 0; keypointAt "right_ankle" 0 1]
           nose (of_Z 10) flexingWorld H).
Defined.

(** The completing step of the example rep. *)
Lemma completion_texts_agree_witness :
  state flexingWorld = FLEXING
  /\ repInfo (snd (repStateMachine (of_Z 100) (of_Z 10) flexingWorld))
     = Some 1%Z.
Proof.
  assert (Hs : state flexingWorld = FLEXING) by by_eval.
  assert (Hs' : state (snd (repStateMachine (of_Z 100) (of_Z 10)
                              flexingWorld)) = BENT) by by_eval.
  split; [exact Hs|].
  destruct (completion_texts_agree (of_Z 100) (of_Z 10) flexingWorld Hs Hs')
    as (_ & H & _).
  rewrite H. by_eval.
Defined.

